(** * CT-HYB walker: the sweep driver, its thermalization gate and the
      correlation worm, embedded from [src/impurity.ipp] and [src/worm.ipp].

    The development follows the C++ text function by function.  Member
    functions of [HybridizationSimulation] become computations in a small
    state-and-error monad over the walker record; collaborators whose code
    lives outside the two translated files (updaters, the sliding-window
    manager, the flat-histogram object, the random number generator, the
    system clock) are fields of the [Environment] class, and every call to
    one of them is recorded in a ghost trace so that statements about "which
    routine runs when" can be read off the final state.

    The first part holds the model and the vocabulary of the statements, the
    second part the facts proved about them; each part ends with the
    accumulators of [measure], the basis change of the Green's function and
    the Legendre mesh of [src/postprocess.hpp]. *)

From Stdlib Require Import ZArith Lia.

From Stdlib Require Import PrimFloat SpecFloat FloatOps FloatAxioms Uint63.

From stdpp Require Import base list strings gmap.

Local Open Scope Z_scope.

Set Warnings "-inexact-float".

(** ** Machine integers

    [int] is a 32-bit two's complement integer and [std::size_t] a 64-bit
    unsigned one.  Values are carried in [Z]; every arithmetic result is
    brought back into range with the wrap-around written out. *)

Module Int.

Definition min_int : Z := - 2 ^ 31.

Definition max_int : Z := 2 ^ 31 - 1.

Definition in_range (z : Z) : Prop := min_int <= z <= max_int.

Definition wrap (z : Z) : Z := (z + 2 ^ 31) `mod` 2 ^ 32 - 2 ^ 31.

Definition add (a b : Z) : Z := wrap (a + b).

Definition sub (a b : Z) : Z := wrap (a - b).

Definition mul (a b : Z) : Z := wrap (a * b).

(** C++ [/] and [%] truncate towards zero. *)
Definition div (a b : Z) : Z := wrap (a `quot` b).

Definition rem (a b : Z) : Z := a `rem` b.

(** [static_cast<std::size_t>] of an [int], and the conversion back when the
    value is stored in an [int] member. *)
Definition to_size_t (z : Z) : Z := z `mod` 2 ^ 64.

Definition of_size_t (z : Z) : Z := wrap z.

End Int.

(** ** Doubles

    [double] is IEEE binary64, carried by Rocq's primitive floats, so that
    products such as [0.9 * TIME_LIMIT] and comparisons are the ones the
    machine performs. *)

Module Double.

Definition of_Z (z : Z) : float :=
  if z <? 0 then (- of_uint63 (Uint63.of_Z (- z)))%float
  else of_uint63 (Uint63.of_Z z).

(** Integer part of the magnitude [m * 2^e], rounded down and rounded up. *)
Definition mag_floor (m : positive) (e : Z) : Z :=
  if 0 <=? e then Z.pos m * 2 ^ e else Z.pos m `div` 2 ^ (- e).

Definition mag_ceil (m : positive) (e : Z) : Z :=
  if 0 <=? e then Z.pos m * 2 ^ e
  else (Z.pos m + 2 ^ (- e) - 1) `div` 2 ^ (- e).

(** [std::ceil] and truncation, as mathematical integers; [None] for
    infinities and NaN. *)
Definition ceil (x : float) : option Z :=
  match Prim2SF x with
  | S754_zero _ => Some 0
  | S754_finite s m e => Some (if s then - mag_floor m e else mag_ceil m e)
  | S754_infinity _ | S754_nan => None
  end.

Definition trunc (x : float) : option Z :=
  match Prim2SF x with
  | S754_zero _ => Some 0
  | S754_finite s m e => Some (if s then - mag_floor m e else mag_floor m e)
  | S754_infinity _ | S754_nan => None
  end.

(** Conversion of a double to [int] or [long].  Out-of-range conversions are
    undefined in C++; the model returns what the x86-64 conversion
    instruction returns, the most negative value of the target type. *)
Definition cast (lo hi : Z) (v : option Z) : Z :=
  match v with
  | Some z => if (lo <=? z) && (z <=? hi) then z else lo
  | None => lo
  end.

Definition to_int (v : option Z) : Z := cast Int.min_int Int.max_int v.

Definition to_long (v : option Z) : Z := cast (- 2 ^ 63) (2 ^ 63 - 1) v.

(** [std::accumulate(first, last, 0.0)] *)
Definition accumulate (l : list float) : float :=
  foldl (fun acc x => (acc + x)%float) 0%float l.

End Double.

(** ** Operators and the correlation worm ([worm.ipp]) *)

Inductive OperatorType := CREATION_OP | ANNIHILATION_OP.

(** [OperatorTime(time, small_index)]: a time point and its tie-breaker. *)
Record OperatorTime := mkOperatorTime { time : float; small_index : Z }.

(** [psi(OperatorTime, type, flavor)] *)
Record psi := mkpsi { op_time : OperatorTime; type : OperatorType; flavor : Z }.

(** [CorrelationWorm<NumTimes>]: [times_] has [NumTimes] entries and
    [flavors_] has [2 * NumTimes]; both arrays are read by index. *)
Record CorrelationWorm := mkCorrelationWorm {
  NumTimes : nat;
  times_ : nat -> float;
  flavors_ : nat -> Z
}.

(** The loop body of [get_operators]: two [push_back]s. *)
Definition get_operators_step (w : CorrelationWorm) (ops : list psi) (it : nat)
  : list psi :=
  let ops :=
    ops ++ [mkpsi (mkOperatorTime (times_ w it)
                     (Int.mul 200 (Int.add (Z.of_nat it) 1)))
              CREATION_OP (flavors_ w (2 * it)%nat)] in
  ops ++ [mkpsi (mkOperatorTime (times_ w it)
                   (Int.mul 100 (Int.add (Z.of_nat it) 1)))
            ANNIHILATION_OP (flavors_ w (2 * it + 1)%nat)].

Definition get_operators (w : CorrelationWorm) : list psi :=
  foldl (get_operators_step w) [] (seq 0 (NumTimes w)).

Definition worm_two_distinct : CorrelationWorm :=
  mkCorrelationWorm 2 (fun i => if (i =? 0)%nat then 0.25%float else 0.75%float)
    (fun i => Z.of_nat i).

Definition worm_two_coincident : CorrelationWorm :=
  mkCorrelationWorm 2 (fun _ => 0.5%float) (fun i => Z.of_nat i).

(** The two operators [get_operators] pushes for time index [it], with the
    tie-breakers as mathematical integers. *)

Definition creation_at (w : CorrelationWorm) (it : nat) : psi :=
  mkpsi (mkOperatorTime (times_ w it) (200 * (Z.of_nat it + 1)))
    CREATION_OP (flavors_ w (2 * it)%nat).

Definition annihilation_at (w : CorrelationWorm) (it : nat) : psi :=
  mkpsi (mkOperatorTime (times_ w it) (100 * (Z.of_nat it + 1)))
    ANNIHILATION_OP (flavors_ w (2 * it + 1)%nat).

(** Two operators share their [(time, tie_breaker)] with respect to a
    notion [teq] of equal times (Leibniz equality, or [==] on doubles). *)
Definition share (teq : float -> float -> Prop) (a b : psi) : Prop :=
  teq (time (op_time a)) (time (op_time b)) /\
  small_index (op_time a) = small_index (op_time b).

(** ** Configuration spaces, the sliding window, parameters *)

(** The enumerators the driver names; [Unsupported_space] stands for any
    further enumerator, which the [switch] of [measure_every_step] sends to
    its [default] branch. *)
Inductive ConfigSpace :=
| Z_FUNCTION | G1 | Two_time_G2 | Equal_time_G1 | Equal_time_G2
| Unsupported_space.

#[global] Instance ConfigSpace_eq_dec : EqDecision ConfigSpace.
Proof. solve_decision. Defined.

Definition ConfigSpace_code (c : ConfigSpace) : nat :=
  match c with
  | Z_FUNCTION => 0 | G1 => 1 | Two_time_G2 => 2 | Equal_time_G1 => 3
  | Equal_time_G2 => 4 | Unsupported_space => 5
  end%nat.

Definition ConfigSpace_decode (n : nat) : ConfigSpace :=
  match n with
  | 0 => Z_FUNCTION | 1 => G1 | 2 => Two_time_G2 | 3 => Equal_time_G1
  | 4 => Equal_time_G2 | _ => Unsupported_space
  end%nat.

#[global] Instance ConfigSpace_countable : Countable ConfigSpace.
Proof.
  apply (inj_countable' ConfigSpace_code ConfigSpace_decode).
  intros []; reflexivity.
Defined.

Inductive ITIME_AXIS_LEFT_OR_RIGHT := ITIME_LEFT | ITIME_RIGHT.

(** What the driver can observe of the [SlidingWindowManager]. *)
Record SlidingWindowManager := mkSlidingWindowManager {
  get_n_window : Z;
  get_position_right_edge : Z;
  get_direction_move_local_window : ITIME_AXIS_LEFT_OR_RIGHT
}.

(** Modelled from the spec: [SlidingWindowManager::set_window_size] is
    implemented outside the translated files.  The spec lists it as
    [set_window_size(n, ops, initial_position, direction)], which rebuilds
    both stacks, with [get_n_window()] and [get_position_right_edge()] as the
    observers; the model stores the three arguments. *)
Definition set_window_size (n pos : Z) (dir : ITIME_AXIS_LEFT_OR_RIGHT)
  (sw : SlidingWindowManager) : SlidingWindowManager :=
  mkSlidingWindowManager n pos dir.

(** The entries of the parameter object the driver reads. *)
Record Params := mkParams {
  TIME_LIMIT : float;
  THERMALIZATION_TIME : float;
  VERBOSE : Z;
  MODEL_SITES : Z;
  MODEL_SPINS : Z;
  MODEL_BETA : float;
  MODEL_N_TAU_HYB : Z;
  UPDATE_MULTI_PAIR_INS_REM : Z;
  UPDATE_N_GLOBAL_UPDATES : Z;
  MEASUREMENT_N_MEAS : Z;
  SLIDING_WINDOW_MAX : Z
}.

(** ** Collaborator calls and the ghost trace *)

Inductive Collaborator :=
| ins_rem_updater_update (k : Z)
| ins_rem_diagonal_updater_update (k : Z)
| operator_pair_flavor_updater_update
| single_op_shift_updater_update
| single_op_shift_updater_update_parameters
| worm_insertion_remover_update (i_worm : Z)
| specialized_updater_update (name : string)
| worm_mover_update (i : Z)
| sliding_window_set_window_size (n pos : Z) (dir : ITIME_AXIS_LEFT_OR_RIGHT)
| sliding_window_move_window_to_next_position
| sliding_window_init_stacks (n : Z)
| sliding_window_compute_trace
| compute_determinant_as_product
| random_shuffle
| global_update_ExchangeFlavor (iupdate Nwin : Z)
| global_update_OperatorShift (shift : float) (Nwin : Z)
| swap_acc_rate_accepted (iupdate : Z)
| swap_acc_rate_rejected (iupdate : Z)
| global_shift_acc_rate_accepted
| global_shift_acc_rate_rejected
| mc_config_check_nan
| mc_config_sanity_check
| flat_histogram_measure (pos : Z)
| flat_histogram_update_lambda (b : bool)
| flat_histogram_finish_learning (b : bool)
| pert_order_recorder_push
| g_meas_legendre_measure
| g_meas_legendre_reset
| measure_observable (name : string)
| worm_measure (name : string)
| single_op_shift_updater_finalize_learning
| ins_rem_diagonal_updater_finalize_learning (k : Z)
| worm_insertion_remover_finalize_learning (w : Z)
| specialized_updater_finalize_learning (name : string)
| count_creation_operators
| resize_vectors
| read_eq_time_two_particle_greens_meas
| read_two_time_correlation_functions
| new_ins_rem_updaters (k : Z)
| create_worm_updaters
| create_observables.

(** Whether the C++ call passes [sliding_window] to the callee, or the callee
    is a member function that can reach it. *)
Definition receives_sliding_window (c : Collaborator) : bool :=
  match c with
  | ins_rem_updater_update _
  | ins_rem_diagonal_updater_update _
  | operator_pair_flavor_updater_update
  | single_op_shift_updater_update
  | worm_insertion_remover_update _
  | specialized_updater_update _
  | worm_mover_update _
  | sliding_window_set_window_size _ _ _
  | sliding_window_move_window_to_next_position
  | sliding_window_init_stacks _
  | sliding_window_compute_trace
  | global_update_ExchangeFlavor _ _
  | global_update_OperatorShift _ _
  | mc_config_sanity_check
  | worm_measure "G1"
  | worm_measure "Two_time_G2"
  | resize_vectors
  | read_eq_time_two_particle_greens_meas
  | read_two_time_correlation_functions
  | create_worm_updaters
  | create_observables => true
  | _ => false
  end.

Inductive Routine :=
| R_do_one_sweep | R_transition_between_config_spaces | R_global_updates
| R_update_MC_parameters | R_measure_every_step.

Inductive Message :=
| msg_initial_trace
| msg_number_of_blocks
| msg_new_window_size (n_win sweeps pert_order : Z)
| msg_global_shift_rejected
| msg_thermalization_done (sweeps n_win : Z)
| msg_flavor_order (flavor : Z)
| msg_flat_histogram_not_converged (rank : Z)
| msg_config_space_weights (w : list float).

Inductive Event :=
| Call (c : Collaborator)      (* a call into a collaborator *)
| Enter (r : Routine)          (* entry into a routine of the driver *)
| Output (m : Message).        (* text written to std::cout or std::cerr *)

(** ** Errors and the monad *)

Inductive Error :=
| assertion_failed (expr : string)
| logic_error (what : string)
| runtime_error (what : string).

Inductive Result (S A : Type) :=
| Ok (a : A) (s : S)
| Err (e : Error).

Arguments Ok {S A} a s.

Arguments Err {S A} e.

Definition M (S A : Type) : Type := S -> Result S A.

#[global] Instance M_ret {S} : MRet (M S) := fun A a s => Ok a s.
#[global] Instance M_bind {S} : MBind (M S) := fun A B f m s =>
  match m s with
  | Ok a s' => f a s'
  | Err e => Err e
  end.

Definition gets {S A} (f : S -> A) : M S A := fun s => Ok (f s) s.

Definition modify {S} (f : S -> S) : M S unit := fun s => Ok tt (f s).

Definition throw {S A} (e : Error) : M S A := fun _ => Err e.

Definition when {S} (b : bool) (m : M S unit) : M S unit :=
  if b then m else mret tt.

(** [for (x : l) body] *)
Fixpoint for_each {S A} (l : list A) (body : A -> M S unit) : M S unit :=
  match l with
  | [] => mret tt
  | x :: l' => body x ;; for_each l' body
  end.

(** [for (int i = lo; i < hi; ++i) body] *)
Definition for_loop {S} (lo hi : Z) (body : Z -> M S unit) : M S unit :=
  for_each (seqZ lo (hi - lo)) body.

(** Members filled in by [create_worm_updaters] and [resize_vectors], whose
    code is outside the translated files. *)
Record Wiring := mkWiring {
  worm_types : list ConfigSpace;
  worm_insertion_removers_size : Z;
  specialized_updaters : gset string;
  swap_vector_size : Z;
  p_flat_histogram_config_space : bool   (* is the pointer non-null *)
}.

(** ** The environment of a walker

    Everything the driver consults but does not implement.  [World] is the
    state of the collaborating objects (the Monte Carlo configuration, the
    random number generator, the clock, the updaters, the flat-histogram
    object, the accumulators); the fields below are the calls and queries
    the driver makes on it. *)

Class Environment (World : Type) := {
  (** whether the translation unit is compiled with [NDEBUG] *)
  NDEBUG : bool;
  (** the effect of a collaborator call; updaters receive the sliding window
      by reference *)
  collaborate :
    Collaborator -> World -> SlidingWindowManager -> World * SlidingWindowManager;
  (** [mc_config.pert_order()] *)
  pert_order : World -> Z;
  (** [mc_config.current_config_space()] *)
  current_config_space : World -> ConfigSpace;
  (** [time(NULL)] *)
  time_NULL : World -> Z;
  (** [random()], a double drawn from the generator *)
  random : World -> float * World;
  (** [boost::random::uniform_int_distribution<>(a, b)(random.engine())] *)
  uniform_int_distribution : Z -> Z -> World -> Z * World;
  (** the [bool] the last updater call returned *)
  accepted : World -> bool;
  (** queries on [*p_flat_histogram_config_space] *)
  flat_enough : World -> bool;
  converged : World -> bool;
  weight_ratio : World -> Z -> Z -> float;
  (** the shuffled [execute_ordering] vector of [global_updates] *)
  execute_ordering : World -> Z -> Z;
  (** [get_config_space_position] *)
  get_config_space_position : ConfigSpace -> Z;
  (** [p_model->translationally_invariant()] *)
  translationally_invariant : bool;
  global_mpi_rank : Z;
  (** [parameters[...].as<long>()] applied to an entry stored as a double *)
  as_long : float -> Z;
  (** default arguments of [set_window_size], declared with the class *)
  default_position_right_edge : Z;
  default_direction_move : ITIME_AXIS_LEFT_OR_RIGHT;
  (** what [resize_vectors] and [create_worm_updaters] leave in the members
      they fill in *)
  created_wiring : Wiring;
  created_config_space_extra_weight : list float;
  created_num_steps_in_config_space : list float
}.

Section Walker.

Context {World : Type} `{Env : Environment World}.

Record Walker := mkWalker {
  par : Params;
  BETA : float;
  SITES : Z;
  SPINS : Z;
  FLAVORS : Z;
  N_meas : Z;
  thermalization_time : float;
  start_time : Z;
  verbose : bool;
  wiring : Wiring;
  N_win_standard : Z;
  sweeps : Z;
  thermalized : bool;
  config_space_extra_weight : list float;
  worm_space_extra_weight_map : gmap ConfigSpace float;
  num_steps_in_config_space : list float;
  min_pert_order_hist : list float;   (* the function-local static list *)
  sliding_window : SlidingWindowManager;
  world : World;
  trace : list Event                  (* ghost *)
}.

Definition set_thermalization_time (v : float) (st : Walker) : Walker :=
  mkWalker (par st) (BETA st) (SITES st) (SPINS st) (FLAVORS st) (N_meas st)
    v (start_time st) (verbose st) (wiring st)
    (N_win_standard st) (sweeps st) (thermalized st)
    (config_space_extra_weight st) (worm_space_extra_weight_map st)
    (num_steps_in_config_space st) (min_pert_order_hist st)
    (sliding_window st) (world st) (trace st).

Definition set_wiring (v : Wiring) (st : Walker) : Walker :=
  mkWalker (par st) (BETA st) (SITES st) (SPINS st) (FLAVORS st) (N_meas st)
    (thermalization_time st) (start_time st) (verbose st) v
    (N_win_standard st) (sweeps st) (thermalized st)
    (config_space_extra_weight st) (worm_space_extra_weight_map st)
    (num_steps_in_config_space st) (min_pert_order_hist st)
    (sliding_window st) (world st) (trace st).

Definition set_N_win_standard (v : Z) (st : Walker) : Walker :=
  mkWalker (par st) (BETA st) (SITES st) (SPINS st) (FLAVORS st) (N_meas st)
    (thermalization_time st) (start_time st) (verbose st) (wiring st)
    v (sweeps st) (thermalized st) (config_space_extra_weight st)
    (worm_space_extra_weight_map st) (num_steps_in_config_space st)
    (min_pert_order_hist st) (sliding_window st) (world st) (trace st).

Definition set_sweeps (v : Z) (st : Walker) : Walker :=
  mkWalker (par st) (BETA st) (SITES st) (SPINS st) (FLAVORS st) (N_meas st)
    (thermalization_time st) (start_time st) (verbose st) (wiring st)
    (N_win_standard st) v (thermalized st) (config_space_extra_weight st)
    (worm_space_extra_weight_map st) (num_steps_in_config_space st)
    (min_pert_order_hist st) (sliding_window st) (world st) (trace st).

Definition set_thermalized (v : bool) (st : Walker) : Walker :=
  mkWalker (par st) (BETA st) (SITES st) (SPINS st) (FLAVORS st) (N_meas st)
    (thermalization_time st) (start_time st) (verbose st) (wiring st)
    (N_win_standard st) (sweeps st) v (config_space_extra_weight st)
    (worm_space_extra_weight_map st) (num_steps_in_config_space st)
    (min_pert_order_hist st) (sliding_window st) (world st) (trace st).

Definition set_config_space_extra_weight (v : list float) (st : Walker) : Walker :=
  mkWalker (par st) (BETA st) (SITES st) (SPINS st) (FLAVORS st) (N_meas st)
    (thermalization_time st) (start_time st) (verbose st) (wiring st)
    (N_win_standard st) (sweeps st) (thermalized st) v
    (worm_space_extra_weight_map st) (num_steps_in_config_space st)
    (min_pert_order_hist st) (sliding_window st) (world st) (trace st).

Definition set_worm_space_extra_weight_map (v : gmap ConfigSpace float)
  (st : Walker) : Walker :=
  mkWalker (par st) (BETA st) (SITES st) (SPINS st) (FLAVORS st) (N_meas st)
    (thermalization_time st) (start_time st) (verbose st) (wiring st)
    (N_win_standard st) (sweeps st) (thermalized st)
    (config_space_extra_weight st) v (num_steps_in_config_space st)
    (min_pert_order_hist st) (sliding_window st) (world st) (trace st).

Definition set_num_steps_in_config_space (v : list float) (st : Walker) : Walker :=
  mkWalker (par st) (BETA st) (SITES st) (SPINS st) (FLAVORS st) (N_meas st)
    (thermalization_time st) (start_time st) (verbose st) (wiring st)
    (N_win_standard st) (sweeps st) (thermalized st)
    (config_space_extra_weight st) (worm_space_extra_weight_map st) v
    (min_pert_order_hist st) (sliding_window st) (world st) (trace st).

Definition set_min_pert_order_hist (v : list float) (st : Walker) : Walker :=
  mkWalker (par st) (BETA st) (SITES st) (SPINS st) (FLAVORS st) (N_meas st)
    (thermalization_time st) (start_time st) (verbose st) (wiring st)
    (N_win_standard st) (sweeps st) (thermalized st)
    (config_space_extra_weight st) (worm_space_extra_weight_map st)
    (num_steps_in_config_space st) v (sliding_window st) (world st) (trace st).

Definition set_world (w : World) (sw : SlidingWindowManager) (st : Walker)
  : Walker :=
  mkWalker (par st) (BETA st) (SITES st) (SPINS st) (FLAVORS st) (N_meas st)
    (thermalization_time st) (start_time st) (verbose st) (wiring st)
    (N_win_standard st) (sweeps st) (thermalized st)
    (config_space_extra_weight st) (worm_space_extra_weight_map st)
    (num_steps_in_config_space st) (min_pert_order_hist st) sw w (trace st).

Definition record (e : Event) (st : Walker) : Walker :=
  mkWalker (par st) (BETA st) (SITES st) (SPINS st) (FLAVORS st) (N_meas st)
    (thermalization_time st) (start_time st) (verbose st) (wiring st)
    (N_win_standard st) (sweeps st) (thermalized st)
    (config_space_extra_weight st) (worm_space_extra_weight_map st)
    (num_steps_in_config_space st) (min_pert_order_hist st)
    (sliding_window st) (world st) (trace st ++ [e]).

(** *** Primitive commands *)

(** A collaborator call.  Only a callee that is handed [sliding_window] (or
    is a member function of the walker or of the window itself) can move the
    window; resizing is the one call whose effect on the observable part of
    the window is fixed by the model. *)
Definition after_call (c : Collaborator) (w : World) (sw : SlidingWindowManager)
  : World * SlidingWindowManager :=
  match c with
  | sliding_window_set_window_size n pos dir =>
      ((collaborate c w sw).1, set_window_size n pos dir (collaborate c w sw).2)
  | _ =>
      if receives_sliding_window c then collaborate c w sw
      else ((collaborate c w sw).1, sw)
  end.

Definition call (c : Collaborator) : M Walker unit :=
  modify (fun st =>
    let r := after_call c (world st) (sliding_window st) in
    record (Call c) (set_world r.1 r.2 st)).

Definition enter (r : Routine) : M Walker unit := modify (record (Enter r)).

Definition output (m : Message) : M Walker unit := modify (record (Output m)).

(** [assert(expr)]: compiled out under [NDEBUG], aborts otherwise. *)
Definition assert (expr : string) (b : bool) : M Walker unit :=
  if NDEBUG then mret tt
  else if b then mret tt else throw (assertion_failed expr).

(** [random()] and the integer distribution advance the generator. *)
Definition draw_random : M Walker float := fun st =>
  let r := random (world st) in
  Ok r.1 (set_world r.2 (sliding_window st) st).

Definition draw_uniform_int (a b : Z) : M Walker Z := fun st =>
  let r := uniform_int_distribution a b (world st) in
  Ok r.1 (set_world r.2 (sliding_window st) st).

(** [sanity_check()]: empty under [NDEBUG]. *)
Definition sanity_check : M Walker unit :=
  if NDEBUG then mret tt
  else call mc_config_check_nan ;; call mc_config_sanity_check.

Definition is_thermalized : M Walker bool := gets thermalized.

(** *** [adjust_worm_space_weight] *)

(** The body of the [for (w < worm_types.size())] loop. *)
Definition apply_weight_ratio (wt : list ConfigSpace) (w : Z) : M Walker unit :=
  r ← gets (fun st => weight_ratio (world st) (Int.add w 1) 0);
  modify (fun st =>
    set_config_space_extra_weight
      (<[Z.to_nat (Int.add w 1) := r]> (config_space_extra_weight st)) st) ;;
  match wt !! Z.to_nat w with
  | Some s =>
      modify (fun st =>
        set_worm_space_extra_weight_map
          (<[s := r]> (worm_space_extra_weight_map st)) st)
  | None => mret tt
  end.

(** The statements under "Apply the new worm space weights". *)
Definition apply_worm_space_weights : M Walker unit :=
  modify (fun st =>
    set_config_space_extra_weight
      (<[0%nat := 1%float]> (config_space_extra_weight st)) st) ;;
  wt ← gets (fun st => worm_types (wiring st));
  for_loop 0 (Z.of_nat (length wt)) (apply_weight_ratio wt).

Definition adjust_worm_space_weight : M Walker unit :=
  p ← gets (fun st => p_flat_histogram_config_space (wiring st));
  th ← is_thermalized;
  if negb p || th then mret tt else
  cs ← gets (fun st => current_config_space (world st));
  call (flat_histogram_measure (get_config_space_position cs)) ;;
  fe ← gets (fun st => flat_enough (world st));
  when fe (call (flat_histogram_update_lambda false)) ;;
  apply_worm_space_weights.

(** *** [transition_between_config_spaces] *)

Definition transition_step : M Walker unit :=
  cs ← gets (fun st => current_config_space (world st));
  (if decide (cs = Z_FUNCTION) then
     r ← draw_random;
     n ← gets (fun st => worm_insertion_removers_size (wiring st));
     let i_worm := Double.to_int (Double.trunc (r * Double.of_Z n)%float) in
     call (worm_insertion_remover_update i_worm)
   else
     let i_worm := Int.sub (get_config_space_position cs) 1 in
     assert "i_worm >= 0" (0 <=? i_worm) ;;
     call (worm_insertion_remover_update i_worm)) ;;
  adjust_worm_space_weight ;;
  cs ← gets (fun st => current_config_space (world st));
  when (bool_decide (cs = Z_FUNCTION) || bool_decide (cs = G1))
    (call (specialized_updater_update "G1_ins_rem_hyb") ;;
     adjust_worm_space_weight) ;;
  su ← gets (fun st => specialized_updaters (wiring st));
  cs ← gets (fun st => current_config_space (world st));
  when (bool_decide ("Connect_Equal_time_G1_and_Two_time_G2" ∈ su)
        && (bool_decide (cs = Equal_time_G1) || bool_decide (cs = Two_time_G2)))
    (call (specialized_updater_update "Connect_Equal_time_G1_and_Two_time_G2") ;;
     adjust_worm_space_weight) ;;
  cs ← gets (fun st => current_config_space (world st));
  when (bool_decide ("G1_shifter_hyb" ∈ su) && bool_decide (cs = G1))
    (call (specialized_updater_update "G1_shifter_hyb") ;;
     adjust_worm_space_weight) ;;
  cs ← gets (fun st => current_config_space (world st));
  let i_config_space := get_config_space_position cs in
  when (0 <? i_config_space)
    (call (worm_mover_update (Int.sub i_config_space 1))).

Definition transition_between_config_spaces : M Walker unit :=
  enter R_transition_between_config_spaces ;;
  wt ← gets (fun st => worm_types (wiring st));
  if (length wt =? 0)%nat then mret tt else
  F ← gets FLAVORS;
  for_loop 0 F (fun _ => transition_step).

(** *** [do_one_sweep] *)

(** The body of the inner [for (update < FLAVORS)] loop. *)
Definition ins_rem_step (rank_ins_rem : Z) : M Walker unit :=
  call (ins_rem_updater_update rank_ins_rem) ;;
  sanity_check ;;
  call (ins_rem_diagonal_updater_update rank_ins_rem) ;;
  sanity_check ;;
  call operator_pair_flavor_updater_update.

(** The body of the [for (move < num_move)] loop.  The local
    [pert_order_sum] is written and never read; it is left out. *)
Definition move_step (rank_ins_rem : Z) : M Walker unit :=
  F ← gets FLAVORS;
  for_loop 0 F (fun _ => ins_rem_step rank_ins_rem) ;;
  for_loop 0 (Int.mul F rank_ins_rem)
    (fun _ => call single_op_shift_updater_update) ;;
  transition_between_config_spaces ;;
  call sliding_window_move_window_to_next_position.

Definition at_right_edge (st : Walker) : bool :=
  get_position_right_edge (sliding_window st) =? 0.

Definition do_one_sweep : M Walker unit :=
  enter R_do_one_sweep ;;
  b ← gets at_right_edge;
  assert "sliding_window.get_position_right_edge() == 0" b ;;
  k ← gets (fun st => UPDATE_MULTI_PAIR_INS_REM (par st));
  rank_ins_rem ← draw_uniform_int 1 k;
  nws ← gets N_win_standard;
  let current_n_window := Z.max (Int.div nws rank_ins_rem) 1 in
  nw ← gets (fun st => get_n_window (sliding_window st));
  when (negb (current_n_window =? nw))
    (call (sliding_window_set_window_size current_n_window 0 ITIME_LEFT)) ;;
  b ← gets at_right_edge;
  assert "sliding_window.get_position_right_edge() == 0" b ;;
  let num_move := Z.max (Int.sub (Int.mul 4 current_n_window) 4) 1 in
  for_loop 0 num_move (fun _ => move_step rank_ins_rem) ;;
  sanity_check ;;
  b ← gets at_right_edge;
  assert "sliding_window.get_position_right_edge() == 0" b.

(** *** [global_updates] *)

(** The moves made while the window is collapsed: everything between the
    two [set_window_size] calls of [global_updates], up to the [if (accepted)]
    statement of the global shift. *)
Definition global_update_moves : M Walker unit :=
  transition_between_config_spaces ;;
  call compute_determinant_as_product ;;
  nswap ← gets (fun st => swap_vector_size (wiring st));
  when (0 <? nswap)
    (call random_shuffle ;;
     for_loop 0 nswap (fun itry =>
       iupdate ← gets (fun st => execute_ordering (world st) itry);
       nws ← gets N_win_standard;
       call (global_update_ExchangeFlavor iupdate (Z.max nws 10)) ;;
       acc ← gets (fun st => accepted (world st));
       if (acc : bool) then call (swap_acc_rate_accepted iupdate) ;; sanity_check
       else call (swap_acc_rate_rejected iupdate) ;; sanity_check)) ;;
  r ← draw_random;
  beta ← gets BETA;
  let shift := (r * beta)%float in
  nws ← gets N_win_standard;
  call (global_update_OperatorShift shift (Z.max nws 10)) ;;
  acc ← gets (fun st => accepted (world st));
  if (acc : bool) then
    call global_shift_acc_rate_accepted ;; call mc_config_check_nan
  else
    call global_shift_acc_rate_rejected ;;
    when translationally_invariant (output msg_global_shift_rejected).

Definition global_updates : M Walker unit :=
  enter R_global_updates ;;
  n_sliding_window_bak ← gets (fun st => get_n_window (sliding_window st));
  call (sliding_window_set_window_size 1 default_position_right_edge
          default_direction_move) ;;
  global_update_moves ;;
  sanity_check ;;
  call (sliding_window_set_window_size n_sliding_window_bak 0 ITIME_LEFT) ;;
  sanity_check.

(** *** [update_MC_parameters] *)

Definition push_min_pert_order_hist (x : float) (h : list float) : list float :=
  let h := h ++ [x] in
  if (20 <? length h)%nat then tail h else h.

Definition new_window_size (hist : list float) (flavors sliding_window_max : Z)
  : Z :=
  let min_expansion_order_ave :=
    (Double.accumulate hist / Double.of_Z (Z.of_nat (length hist)))%float in
  Int.of_size_t (Int.to_size_t
    (Z.max sliding_window_max
       (Z.min
          (Double.to_int
             (Double.ceil (min_expansion_order_ave / Double.of_Z flavors)%float))
          sliding_window_max))).

Definition update_MC_parameters : M Walker unit :=
  enter R_update_MC_parameters ;;
  th ← is_thermalized;
  assert "!is_thermalized()" (negb th) ;;
  th ← is_thermalized;
  if (th : bool) then throw (logic_error "called update_MC_parameters after thermalized")
  else
  po ← gets (fun st => pert_order (world st));
  modify (fun st =>
    set_min_pert_order_hist
      (push_min_pert_order_hist (Double.of_Z po) (min_pert_order_hist st)) st) ;;
  hist ← gets min_pert_order_hist;
  F ← gets FLAVORS;
  mx ← gets (fun st => SLIDING_WINDOW_MAX (par st));
  modify (set_N_win_standard (new_window_size hist F mx)) ;;
  v ← gets verbose;
  s ← gets sweeps;
  nws ← gets N_win_standard;
  po ← gets (fun st => pert_order (world st));
  when (v && (global_mpi_rank =? 0) && (Int.rem s 10 =? 0))
    (output (msg_new_window_size nws s po)) ;;
  call single_op_shift_updater_update_parameters ;;
  now ← gets (fun st => time_NULL (world st));
  start ← gets start_time;
  limit ← gets thermalization_time;
  when (limit <? Double.of_Z (now - start))%float
    (modify (set_thermalized true)).

(** *** [measure_every_step] *)

Definition bump (l : list float) (i : nat) : list float :=
  match l !! i with
  | Some x => <[i := (x + 1)%float]> l
  | None => l
  end.

Definition measure_every_step : M Walker unit :=
  enter R_measure_every_step ;;
  th ← is_thermalized;
  assert "is_thermalized()" th ;;
  cs ← gets (fun st => current_config_space (world st));
  match cs with
  | Z_FUNCTION =>
      call g_meas_legendre_measure ;;
      _ ← draw_random;
      call (measure_observable "kLkR") ;;
      call (measure_observable "k")
  | G1 => call (worm_measure "G1")
  | Two_time_G2 => call (worm_measure "Two_time_G2")
  | Equal_time_G1 => call (worm_measure "Equal_time_G1")
  | Equal_time_G2 => call (worm_measure "Equal_time_G2")
  | Unsupported_space => throw (runtime_error "Used unsupported worm")
  end ;;
  cs ← gets (fun st => current_config_space (world st));
  modify (fun st =>
    set_num_steps_in_config_space
      (bump (num_steps_in_config_space st)
         (Z.to_nat (get_config_space_position cs))) st).

(** *** [update] *)

(** The three guarded calls in the body of the loop. *)

(** [if (sweeps % par["UPDATE.N_GLOBAL_UPDATES"] == 0) global_updates();] *)
Definition guarded_global_updates : M Walker unit :=
  s ← gets sweeps;
  n ← gets (fun st => UPDATE_N_GLOBAL_UPDATES (par st));
  when (Int.rem s n =? 0) global_updates.

(** [if (!is_thermalized()) update_MC_parameters();] *)
Definition guarded_update_MC_parameters : M Walker unit :=
  th ← is_thermalized;
  when (negb th) update_MC_parameters.

(** [if (is_thermalized()) measure_every_step();] *)
Definition guarded_measure_every_step : M Walker unit :=
  th ← is_thermalized;
  when th measure_every_step.

(** One pass through the body of the [for (imeas < N_meas)] loop. *)
Definition update_iteration : M Walker unit :=
  modify (fun st => set_sweeps (sweeps st + 1) st) ;;
  call pert_order_recorder_push ;;
  do_one_sweep ;;
  guarded_global_updates ;;
  guarded_update_MC_parameters ;;
  guarded_measure_every_step ;;
  sanity_check.

Definition update : M Walker unit :=
  n ← gets N_meas;
  for_loop 0 n (fun _ => update_iteration).

(** *** [prepare_for_measurement] *)



(** *** The constructor *)

(** The member initialisers. *)
Definition initial_members (p : Params) (w0 : World) (sw0 : SlidingWindowManager)
  : Walker :=
  mkWalker p (MODEL_BETA p) (MODEL_SITES p) (MODEL_SPINS p)
    (Int.mul (MODEL_SPINS p) (MODEL_SITES p)) (MEASUREMENT_N_MEAS p)
    (THERMALIZATION_TIME p) (time_NULL w0) (negb (VERBOSE p =? 0))
    (mkWiring [] 0 ∅ 0 false)
    1 0 false [] ∅ [] [] sw0 w0 [].

(** The two checks on the thermalization time that open the body. *)
Definition check_thermalization_time : M Walker unit :=
  tt0 ← gets thermalization_time;
  tl ← gets (fun st => TIME_LIMIT (par st));
  when (tt0 <? 0)%float
    (modify (set_thermalization_time (0.25 * Double.of_Z (as_long tl))%float)) ;;
  tt1 ← gets thermalization_time;
  if (0.9 * tl <? tt1)%float then
    throw (runtime_error
             "TIME_LIMIT is too short in comparison with THERMALIZATION_TIME.")
  else mret tt.

Definition constructor_body : M Walker unit :=
  check_thermalization_time ;;
  call resize_vectors ;;
  call (sliding_window_init_stacks 10000) ;;
  call sliding_window_compute_trace ;;
  v ← gets verbose;
  when ((global_mpi_rank =? 0) && v) (output msg_initial_trace) ;;
  call read_eq_time_two_particle_greens_meas ;;
  call read_two_time_correlation_functions ;;
  when ((global_mpi_rank =? 0) && v) (output msg_number_of_blocks) ;;
  rank_ins_rem ← gets (fun st => UPDATE_MULTI_PAIR_INS_REM (par st));
  if rank_ins_rem <? 1 then
    throw (runtime_error "UPDATE.MULTI_PAIR_INS_REM is not valid.")
  else
  for_loop 1 (Int.add rank_ins_rem 1) (fun k => call (new_ins_rem_updaters k)) ;;
  call create_worm_updaters ;;
  modify (fun st =>
    set_num_steps_in_config_space created_num_steps_in_config_space
      (set_config_space_extra_weight created_config_space_extra_weight
         (set_wiring created_wiring st))) ;;
  call create_observables.

Definition HybridizationSimulation (p : Params) (w0 : World)
  (sw0 : SlidingWindowManager) : Result Walker unit :=
  constructor_body (initial_members p w0 sw0).

End Walker.

Arguments Walker World : clear implicits.

(** ** A small concrete environment

    Used to run the driver on explicit inputs.  The world holds the clock
    reading, the perturbation order, the current configuration space, the
    rank the integer distribution returns and the flags of the
    flat-histogram object; collaborator calls leave it unchanged. *)

Record ToyWorld := mkToyWorld {
  toy_clock : Z;
  toy_pert_order : Z;
  toy_space : ConfigSpace;
  toy_rank : Z;
  toy_converged : bool
}.

Definition toy_position (c : ConfigSpace) : Z :=
  match c with Z_FUNCTION => 0 | G1 => 1 | _ => 2 end.

Definition toy_env (ndebug : bool) : Environment ToyWorld := {|
  NDEBUG := ndebug;
  collaborate := fun _ w sw => (w, sw);
  pert_order := toy_pert_order;
  current_config_space := toy_space;
  time_NULL := toy_clock;
  random := fun w => (0.5%float, w);
  uniform_int_distribution := fun _ _ w => (toy_rank w, w);
  accepted := fun _ => true;
  flat_enough := fun _ => false;
  converged := toy_converged;
  weight_ratio := fun _ i _ => Double.of_Z (2 * i);
  execute_ordering := fun _ i => i;
  get_config_space_position := toy_position;
  translationally_invariant := false;
  global_mpi_rank := 0;
  as_long := fun x => Double.to_long (Double.trunc x);
  default_position_right_edge := 0;
  default_direction_move := ITIME_LEFT;
  created_wiring := mkWiring [G1] 1 {["G1_ins_rem_hyb"]} 0 true;
  created_config_space_extra_weight := [1%float; 1%float];
  created_num_steps_in_config_space := [0%float; 0%float]
|}.

Definition toy_params (time_limit thermalization : float) (max_window : Z)
  : Params :=
  mkParams time_limit thermalization 0 1 2 10%float 100 1 10 1 max_window.

Definition toy_window : SlidingWindowManager :=
  mkSlidingWindowManager 1 0 ITIME_LEFT.

(** A walker in the state the constructor leaves, with everything that
    matters to the examples settable. *)
Definition toy_walker (p : Params) (w : ToyWorld) (thermalization : float)
  (is_thermalized : bool) : Walker ToyWorld :=
  mkWalker p 10%float 1 2 2 1 thermalization 0 false
    (mkWiring [G1] 1 {["G1_ins_rem_hyb"]} 0 true)
    1 0 is_thermalized [1%float; 1%float] ∅ [0%float; 0%float] []
    toy_window w [].

(** Walkers used to run the driver on explicit inputs. *)

(** A walker that is not thermalized, with two flavors, perturbation order 0
    and [SLIDING_WINDOW.MAX = 5]. *)
Definition empty_order_walker : Walker ToyWorld :=
  toy_walker (toy_params 100%float 25%float 5)
    (mkToyWorld 3 0 Z_FUNCTION 1 false) 25%float false.

(** A walker whose clock reads exactly [THERMALIZATION_TIME] seconds after
    the start. *)
Definition on_the_dot_walker : Walker ToyWorld :=
  toy_walker (toy_params 100%float 10%float 5)
    (mkToyWorld 10 0 Z_FUNCTION 1 false) 10%float false.

(** A walker that is already thermalized. *)
Definition thermalized_walker : Walker ToyWorld :=
  toy_walker (toy_params 100%float 10%float 5)
    (mkToyWorld 50 0 Z_FUNCTION 1 false) 10%float true.


(** * The vocabulary of the statements *)

(** ** What each routine may write, emit and raise *)

(** Calls into the worm updaters and the flat-histogram object. *)
Definition worm_sector (e : Event) : Prop :=
  match e with
  | Call (worm_insertion_remover_update _)
  | Call (specialized_updater_update _)
  | Call (worm_mover_update _)
  | Call (flat_histogram_measure _)
  | Call (flat_histogram_update_lambda _) => True
  | _ => False
  end.

(** Events of [transition_between_config_spaces]. *)
Definition transition_event (e : Event) : Prop :=
  e = Enter R_transition_between_config_spaces \/ worm_sector e.

(** Events of [do_one_sweep]. *)
Definition sweep_event (e : Event) : Prop :=
  match e with
  | Enter R_do_one_sweep
  | Call (ins_rem_updater_update _)
  | Call (ins_rem_diagonal_updater_update _)
  | Call operator_pair_flavor_updater_update
  | Call single_op_shift_updater_update
  | Call (sliding_window_set_window_size _ _ _)
  | Call sliding_window_move_window_to_next_position
  | Call mc_config_check_nan
  | Call mc_config_sanity_check => True
  | _ => transition_event e
  end.

(** Events of [global_updates] between its two resizing calls. *)
Definition global_move_event (e : Event) : Prop :=
  match e with
  | Call compute_determinant_as_product
  | Call random_shuffle
  | Call (global_update_ExchangeFlavor _ _)
  | Call (global_update_OperatorShift _ _)
  | Call (swap_acc_rate_accepted _)
  | Call (swap_acc_rate_rejected _)
  | Call global_shift_acc_rate_accepted
  | Call global_shift_acc_rate_rejected
  | Call mc_config_check_nan
  | Call mc_config_sanity_check
  | Output msg_global_shift_rejected => True
  | _ => transition_event e
  end.

Definition is_resize (e : Event) : Prop :=
  match e with
  | Call (sliding_window_set_window_size _ _ _) => True
  | _ => False
  end.

(** Events of [global_updates]. *)
Definition global_event (e : Event) : Prop :=
  e = Enter R_global_updates \/ is_resize e \/ global_move_event e.

(** Events of [update_MC_parameters]. *)
Definition tuning_event (e : Event) : Prop :=
  match e with
  | Enter R_update_MC_parameters
  | Output (msg_new_window_size _ _ _)
  | Call single_op_shift_updater_update_parameters => True
  | _ => False
  end.

(** Events of [measure_every_step]. *)
Definition measuring_event (e : Event) : Prop :=
  match e with
  | Enter R_measure_every_step
  | Call g_meas_legendre_measure
  | Call (measure_observable _)
  | Call (worm_measure _) => True
  | _ => False
  end.

Definition right_edge_assertion : string :=
  "sliding_window.get_position_right_edge() == 0".

(** Following the spec's words: [clip(ceil(avg / F), 1, SLIDING_WINDOW_MAX)],
    with [avg] the mean of the recorded perturbation orders. *)
Definition clip (x lo hi : Z) : Z := Z.max lo (Z.min x hi).

Definition spec_window_size (hist : list float) (flavors mx : Z) : Z :=
  clip
    (Double.to_int
       (Double.ceil
          (Double.accumulate hist / Double.of_Z (Z.of_nat (length hist)) /
           Double.of_Z flavors)%float))
    1 mx.


Definition time_limit_error : Error :=
  runtime_error "TIME_LIMIT is too short in comparison with THERMALIZATION_TIME.".

Definition rank_error : Error :=
  runtime_error "UPDATE.MULTI_PAIR_INS_REM is not valid.".

(** ** Views of the walker, error classes and judgements *)

Section Vocabulary.

Context {World : Type} `{Env : Environment World}.
Implicit Types st : Walker World.

(** Members no routine of the sweep loop writes, together with those only
    [update_MC_parameters] and [update] write. *)
Definition core (st : Walker World) :=
  (par st, BETA st, SITES st, SPINS st, FLAVORS st, N_meas st,
   thermalization_time st, start_time st, verbose st, wiring st,
   N_win_standard st, sweeps st, thermalized st, min_pert_order_hist st).

(** The reweighting members. *)
Definition weights (st : Walker World) :=
  (config_space_extra_weight st, worm_space_extra_weight_map st,
   num_steps_in_config_space st).

(** The debug-build events of [sanity_check]. *)
Definition sanity_events : list Event :=
  if NDEBUG then [] else [Call mc_config_check_nan; Call mc_config_sanity_check].

(** The assertion inside [transition_between_config_spaces]. *)
Definition worm_assertion (e : Error) : Prop :=
  NDEBUG = false /\ e = assertion_failed "i_worm >= 0".

(** The assertions [do_one_sweep] can trip. *)
Definition sweep_assertion (e : Error) : Prop :=
  NDEBUG = false /\
  (e = assertion_failed right_edge_assertion \/ e = assertion_failed "i_worm >= 0").

(** The two ways [update_MC_parameters] refuses a thermalized walker. *)
Definition refusal : Error :=
  if NDEBUG then logic_error "called update_MC_parameters after thermalized"
  else assertion_failed "!is_thermalized()".


(** The debug-build consistency check [mc_config.sanity_check(sliding_window)]
    does not resize the window it inspects. *)
Definition check_keeps_window_size : Prop :=
  NDEBUG = false ->
  forall w sw,
    get_n_window (collaborate mc_config_sanity_check w sw).2 = get_n_window sw.


(** The walker's own members: everything but the collaborators' state, the
    window and the trace. *)
Definition members st := (core st, weights st).


Section Judgement.

Context {X : Type} (f : Walker World -> X).

(** [f] does not look at the collaborators' state nor at the trace. *)
Record Frame : Prop := {
  frame_world : forall w sw st, f (set_world w sw st) = f st;
  frame_record : forall e st, f (record e st) = f st
}.

(** [f] does not look at the reweighting members. *)
Record FrameWeights : Prop := {
  frame_extra_weight : forall v st, f (set_config_space_extra_weight v st) = f st;
  frame_extra_weight_map :
    forall v st, f (set_worm_space_extra_weight_map v st) = f st;
  frame_num_steps : forall v st, f (set_num_steps_in_config_space v st) = f st
}.

(** [sat P E m]: whenever [m] returns, [f] is unchanged and the trace has
    grown by events that all satisfy [P]; whenever it fails, the error
    satisfies [E]. *)
Definition sat (P : Event -> Prop) (E : Error -> Prop) {A}
  (m : M (Walker World) A) : Prop :=
  forall st,
    match m st with
    | Ok _ st' =>
        f st' = f st /\ exists evs, trace st' = trace st ++ evs /\ Forall P evs
    | Err e => E e
    end.

End Judgement.

End Vocabulary.

(** ** Values and event lists the statements name *)

(** Members [update_MC_parameters] leaves alone. *)
Definition tuning_frame {World} (st : Walker World) :=
  (par st, BETA st, SITES st, SPINS st, FLAVORS st, N_meas st,
   thermalization_time st, start_time st, verbose st, wiring st, sweeps st,
   config_space_extra_weight st, worm_space_extra_weight_map st,
   num_steps_in_config_space st).

(** Members fixed once the constructor has returned. *)
Definition setup {World} (st : Walker World) :=
  (par st, BETA st, SITES st, SPINS st, FLAVORS st, N_meas st,
   thermalization_time st, start_time st, verbose st, wiring st).

(** The value [update_MC_parameters] stores in [N_win_standard]. *)
Definition tuned_window_size {World} `{Env : Environment World}
  (st : Walker World) : Z :=
  new_window_size
    (push_min_pert_order_hist (Double.of_Z (pert_order (world st)))
       (min_pert_order_hist st))
    (FLAVORS st) (SLIDING_WINDOW_MAX (par st)).

(** The comparison [time(NULL) - start_time > thermalization_time], on the
    clock of the state it is given. *)
Definition time_is_up {World} `{Env : Environment World}
  (st : Walker World) : bool :=
  (thermalization_time st <?
   Double.of_Z (time_NULL (world st) - start_time st))%float.





(** The thermalization time the constructor settles on. *)
Definition effective_thermalization_time {World} `{Env : Environment World}
  (p : Params) : float :=
  if (THERMALIZATION_TIME p <? 0)%float
  then (0.25 * Double.of_Z (as_long (TIME_LIMIT p)))%float
  else THERMALIZATION_TIME p.

(** The condition of the first [throw]. *)
Definition thermalization_too_long {World} `{Env : Environment World}
  (p : Params) : bool :=
  (0.9 * TIME_LIMIT p <? effective_thermalization_time p)%float.

Definition is_verbose {World} `{Env : Environment World} (p : Params) : bool :=
  (global_mpi_rank =? 0) && negb (VERBOSE p =? 0).

(** Everything a successful construction records, in order. *)
Definition constructor_events {World} `{Env : Environment World} (p : Params)
  : list Event :=
  [Call resize_vectors; Call (sliding_window_init_stacks 10000);
   Call sliding_window_compute_trace] ++
  (if is_verbose p then [Output msg_initial_trace] else []) ++
  [Call read_eq_time_two_particle_greens_meas;
   Call read_two_time_correlation_functions] ++
  (if is_verbose p then [Output msg_number_of_blocks] else []) ++
  map (fun k => Call (new_ins_rem_updaters k))
    (seqZ 1 (Int.add (UPDATE_MULTI_PAIR_INS_REM p) 1 - 1)) ++
  [Call create_worm_updaters; Call create_observables].

(** * Further parts of the program *)

(** ** Events of the tuning, the reweighting and the preparation *)

(** What [update_MC_parameters] writes after its entry, in state [st]. *)
Definition tuning_events {World} `{Env : Environment World} (st : Walker World)
  : list Event :=
  (if verbose st && (global_mpi_rank =? 0) && (Int.rem (sweeps st) 10 =? 0)
   then [Output (msg_new_window_size (tuned_window_size st) (sweeps st)
                   (pert_order (world st)))]
   else []) ++
  [Call single_op_shift_updater_update_parameters].

(** The state of the collaborators once the call [c] made in state [st] has
    returned. *)
Definition world_after {World} `{Env : Environment World} (c : Collaborator)
  (st : Walker World) : World :=
  (after_call c (world st) (sliding_window st)).1.

(** What [adjust_worm_space_weight] records when it is not idle. *)

(** What [adjust_worm_space_weight] records when it is not idle. *)
Definition reweighting_events {World} `{Env : Environment World}
  (st : Walker World) : list Event :=
  let c :=
    flat_histogram_measure
      (get_config_space_position (current_config_space (world st))) in
  Call c ::
  (if flat_enough (world_after c st)
   then [Call (flat_histogram_update_lambda false)] else []).


(** The report on the thermalization, printed on rank 0 only. *)


(** What [prepare_for_measurement] records after the flat-histogram block. *)


(** ** Events of the global updates *)

(** Events of one attempt to exchange flavors: the attempt [a.1] with the
    window argument [max(N_win_standard, 10)], the counter that matches its
    outcome [a.2], the debug-build check. *)
Definition swap_events {World} `{Env : Environment World} (nws : Z)
  (a : Z * bool) : list Event :=
  [Call (global_update_ExchangeFlavor a.1 (Z.max nws 10));
   Call (if a.2 then swap_acc_rate_accepted a.1 else swap_acc_rate_rejected a.1)]
  ++ sanity_events.

(** Events of the global shift by [shift] with outcome [acc]. *)

(** Events of the global shift by [shift] with outcome [acc]. *)
Definition shift_events {World} `{Env : Environment World} (nws : Z)
  (shift : float) (acc : bool) : list Event :=
  Call (global_update_OperatorShift shift (Z.max nws 10)) ::
  (if acc then [Call global_shift_acc_rate_accepted; Call mc_config_check_nan]
   else Call global_shift_acc_rate_rejected ::
        (if translationally_invariant then [Output msg_global_shift_rejected]
         else [])).

(** Events of [global_updates] between its two resizing calls, for the worm
    events [t], the flavor exchanges [swaps] and the shift. *)

(** Events of [global_updates] between its two resizing calls, for the worm
    events [t], the flavor exchanges [swaps] and the shift. *)
Definition global_move_events {World} `{Env : Environment World}
  (st : Walker World) (t : list Event) (swaps : list (Z * bool))
  (shift : float) (acc : bool) : list Event :=
  Enter R_transition_between_config_spaces :: t ++
  [Call compute_determinant_as_product] ++
  (if 0 <? swap_vector_size (wiring st)
   then Call random_shuffle ::
        concat (map (swap_events (N_win_standard st)) swaps)
   else []) ++
  shift_events (N_win_standard st) shift acc.

(** The body of the loop over the flavor exchanges. *)

(** The body of the loop over the flavor exchanges. *)
Definition swap_step {World} `{Env : Environment World} (itry : Z)
  : M (Walker World) unit :=
  iupdate ← gets (fun st => execute_ordering (world st) itry);
  nws ← gets N_win_standard;
  call (global_update_ExchangeFlavor iupdate (Z.max nws 10)) ;;
  acc ← gets (fun st => accepted (world st));
  if (acc : bool) then call (swap_acc_rate_accepted iupdate) ;; sanity_check
  else call (swap_acc_rate_rejected iupdate) ;; sanity_check.

(** A walker whose thermalization time is not a number. *)
Definition nan_walker : Walker ToyWorld :=
  toy_walker (toy_params 100%float nan 5)
    (mkToyWorld 1000 0 Z_FUNCTION 1 false) nan false.

(** ** Worm transitions and default parameters *)




(** ** The accumulators ([measure], [measure_Z_function_space])

    [measurements[name] << value] appends [value] to the accumulator called
    [name]; the model keeps the pushes in the order they are made. *)

Inductive Observation :=
| scalar (x : float)
| vector (v : list float).

(** What the two blocks below consult besides the members of the walker. *)
Class Accumulating (World : Type) := {
  (** [get_config_space_name] *)
  get_config_space_name : ConfigSpace -> string;
  (** [count_creation_operators(FLAVORS, mc_config)] *)
  count_creation_operators_of : Z -> World -> list Z;
  (** [par["MEASUREMENT.MAX_ORDER_HISTOGRAM"]] *)
  MEASUREMENT_MAX_ORDER_HISTOGRAM : Z
}.

(** [v[i]] on a [std::vector] or [std::valarray] of doubles.  Reading past
    the end is undefined in C++; the model reads 0.0 there. *)
Definition entry (v : list float) (i : Z) : float :=
  default 0%float (v !! Z.to_nat i).

(** [v[i]] on a [std::vector<int>], with the same convention. *)
Definition int_entry (v : list Z) (i : Z) : Z := default 0 (v !! Z.to_nat i).

(** The vector pushed to ["order"] for one flavor in
    [measure_Z_function_space]: [FLAVORS * N_order] zeros, with a 1.0 at
    [flavor * N_order + order] when [order < N_order].  (A negative size makes
    the [std::vector] constructor throw; the model is meant for sizes that
    are not negative.) *)
Definition order_creation_meas (flavors n_order order flavor : Z) : list float :=
  let v := replicate (Z.to_nat (Int.mul flavors n_order)) 0%float in
  if order <? n_order
  then <[Z.to_nat (Int.add (Int.mul flavor n_order) order) := 1%float]> v
  else v.

Section Measure.

Context {World : Type} `{Acc : Accumulating World}.

(** The walker together with [measurements]. *)
Definition Measuring : Type := Walker World * list (string * Observation).

Definition on_walker {A} (m : M (Walker World) A) : M Measuring A :=
  fun s =>
    match m s.1 with
    | Ok a w => Ok a (w, s.2)
    | Err e => Err e
    end.

Definition push (name : string) (value : Observation) : M Measuring unit :=
  modify (fun s => (s.1, s.2 ++ [(name, value)])).

Definition worm_space_name (wt : list ConfigSpace) (w : Z) : string :=
  from_option get_config_space_name "" (wt !! Z.to_nat w).

(** The block "Measure the volumes of the configuration spaces" of
    [measure].  [num_steps_in_config_space /= config_space_extra_weight]
    divides entry by entry; it is undefined for arrays of different
    lengths, where the model stops at the shorter one. *)
Definition measure_config_space_volumes : M Measuring unit :=
  ns ← on_walker (gets num_steps_in_config_space);
  push "Z_function_space_num_steps" (scalar (entry ns 0)) ;;
  wt ← on_walker (gets (fun st => worm_types (wiring st)));
  for_loop 0 (Z.of_nat (length wt)) (fun w =>
    push ("worm_space_num_steps_" +:+ worm_space_name wt w)
      (scalar (entry ns (Int.add w 1)))) ;;
  on_walker (modify (fun st =>
    set_num_steps_in_config_space
      (zip_with PrimFloat.div (num_steps_in_config_space st)
         (config_space_extra_weight st)) st)) ;;
  ns ← on_walker (gets num_steps_in_config_space);
  push "Z_function_space_volume" (scalar (entry ns 0)) ;;
  for_loop 0 (Z.of_nat (length wt)) (fun w =>
    push ("worm_space_volume_" +:+ worm_space_name wt w)
      (scalar (entry ns (Int.add w 1)))) ;;
  on_walker (modify (fun st =>
    set_num_steps_in_config_space
      (replicate (length (num_steps_in_config_space st)) 0%float) st)).

(** The block "measure the perturbation order" of
    [measure_Z_function_space]. *)
Definition measure_perturbation_order : M Measuring unit :=
  F ← on_walker (gets FLAVORS);
  order_creation_flavor ←
    on_walker (gets (fun st => count_creation_operators_of F (world st)));
  let N_order := MEASUREMENT_MAX_ORDER_HISTOGRAM in
  for_loop 0 F (fun flavor =>
    push "order"
      (vector (order_creation_meas F N_order
                 (int_entry order_creation_flavor flavor) flavor))) ;;
  push "PerturbationOrderFlavors"
    (vector (map Double.of_Z order_creation_flavor)).

End Measure.

Arguments Measuring World : clear implicits.

(** The samples of the step counters and of the volumes [measure] records
    for the worm spaces [wt], from the counters [ns] and the weights [cw]. *)
Definition num_steps_samples {World} `{Acc : Accumulating World}
  (wt : list ConfigSpace) (ns : list float) : list (string * Observation) :=
  ("Z_function_space_num_steps", scalar (entry ns 0)) ::
  imap (fun w c =>
          ("worm_space_num_steps_" +:+ get_config_space_name c,
           scalar (entry ns (Z.of_nat w + 1)))) wt.

Definition volume_samples {World} `{Acc : Accumulating World}
  (wt : list ConfigSpace) (ns cw : list float) : list (string * Observation) :=
  ("Z_function_space_volume", scalar (entry ns 0 / entry cw 0)%float) ::
  imap (fun w c =>
          ("worm_space_volume_" +:+ get_config_space_name c,
           scalar (entry ns (Z.of_nat w + 1) / entry cw (Z.of_nat w + 1))%float))
    wt.

(** A small instance: spaces are named after their position, every flavor
    has the perturbation order of the toy world, and the histogram has three
    bins per flavor. *)
Definition toy_accumulating : Accumulating ToyWorld := {|
  get_config_space_name := fun c =>
    match c with Z_FUNCTION => "Z" | G1 => "G1" | _ => "other" end;
  count_creation_operators_of := fun F w =>
    replicate (Z.to_nat F) (toy_pert_order w);
  MEASUREMENT_MAX_ORDER_HISTOGRAM := 3
|}.

(** ** [transform_G_back_to_original_basis]

    The function is a template over the scalar and matrix types.  [C] is the
    scalar type, a matrix is the list of its rows, and [sandwich] stands for
    the Eigen expression [rotmat_Delta * mattmp * inv_rotmat_Delta]. *)

Section Transform.

Context {C : Type} `{Inhabited C}.
Variable sandwich : list (list C) -> list (list C).

(** [(iflavor * FLAVORS + jflavor) * Np1 + time], in [int] arithmetic. *)
Definition G_index (F Np1 iflavor jflavor time : Z) : Z :=
  Int.add (Int.mul (Int.add (Int.mul iflavor F) jflavor) Np1) time.

(** [m(i, j)] and [G[k]].  An access outside the object is undefined in C++;
    the model reads the default of [C] there, and a write there is lost. *)
Definition coeff (m : list (list C)) (i j : Z) : C :=
  (m !!! Z.to_nat i) !!! Z.to_nat j.

(** The first pair of loops: [mattmp(i, j) = G[...]]. *)
Definition gather (F Np1 time : Z) (G : list C) : list (list C) :=
  map (fun i => map (fun j => G !!! Z.to_nat (G_index F Np1 i j time))
                 (seqZ 0 (F - 0)))
    (seqZ 0 (F - 0)).

(** The second pair of loops: [G[...] = mattmp2(i, j)]. *)
Definition scatter (F Np1 time : Z) (m : list (list C)) (G : list C) : list C :=
  foldl (fun G i =>
           foldl (fun G j =>
                    <[Z.to_nat (G_index F Np1 i j time) := coeff m i j]> G)
             G (seqZ 0 (F - 0)))
    G (seqZ 0 (F - 0)).

(** The body of the loop over [time]. *)
Definition transform_time_slice (F Np1 : Z) (G : list C) (time : Z) : list C :=
  scatter F Np1 time (sandwich (gather F Np1 time G)) G.

Definition transform_G_back_to_original_basis (ndebug : bool)
  (FLAVORS SITES SPINS Np1 : Z) (G : list C) : Error + list C :=
  if negb ndebug && negb (FLAVORS =? Int.mul SITES SPINS) then
    inl (assertion_failed "FLAVORS == SITES * SPINS")
  else if negb ndebug &&
          negb (Z.of_nat (length G) =?
                Int.to_size_t (Int.mul (Int.mul FLAVORS FLAVORS) Np1)) then
    inl (assertion_failed "G.size() == FLAVORS * FLAVORS * Np1")
  else if negb ndebug && negb (SPINS =? 2) then
    inl (assertion_failed "SPINS == 2")
  else inr (foldl (transform_time_slice FLAVORS Np1) G (seqZ 0 (Np1 - 0))).

End Transform.

(** A stand-in for the rotation, used to run the function: every entry is
    doubled. *)
Definition doubled (m : list (list Z)) : list (list Z) := map (map (Z.mul 2)) m.

(** ** [postprocess.hpp] *)

(** [std::max(a, b)] and [std::min(a, b)] on doubles, as the standard defines
    them: [(a < b) ? b : a] and [(b < a) ? b : a]. *)
Module Std.

Definition max (a b : float) : float := if (a <? b)%float then b else a.

Definition min (a b : float) : float := if (b <? a)%float then b else a.

End Std.

(** The argument [x] handed to [compute_legendre] in the [itau] loop of
    [N2_correlation_function]. *)
Definition N2_legendre_argument (beta : float) (n_tau itau : Z) : float :=
  let tau := (Double.of_Z itau * (beta / Double.of_Z (Int.sub n_tau 1)))%float in
  let x := (2 * tau / beta - 1.0)%float in
  let x := Std.max (-1 + 1E-8)%float x in
  Std.min (1 - 1E-8)%float x.

(** The same argument in the [itau] loop of [compute_greens_functions], which
    does not clamp it. *)
Definition greens_legendre_argument (beta : float) (n_tau itau : Z) : float :=
  let tau := (Double.of_Z itau * (beta / Double.of_Z n_tau))%float in
  (2 * tau / beta - 1.0)%float.

(** * Machine arithmetic *)

Lemma wrap_in_range z : Int.in_range z -> Int.wrap z = z.
Proof.
  unfold Int.in_range, Int.wrap, Int.min_int, Int.max_int. intros H.
  rewrite Z.mod_small; lia.
Qed.

Lemma wrap_range z : Int.in_range (Int.wrap z).
Proof.
  unfold Int.in_range, Int.wrap, Int.min_int, Int.max_int.
  pose proof (Z.mod_pos_bound (z + 2 ^ 31) (2 ^ 32)). lia.
Qed.

Lemma size_t_round_trip z :
  Int.in_range z -> Int.of_size_t (Int.to_size_t z) = z.
Proof.
  unfold Int.of_size_t, Int.to_size_t, Int.wrap, Int.in_range, Int.min_int,
    Int.max_int. intros H.
  replace (2 ^ 64) with (2 ^ 32 * 2 ^ 32) by reflexivity.
  rewrite <- (Z.add_mod_idemp_l (z `mod` _)) by lia.
  rewrite Z.rem_mul_r by lia.
  rewrite (Z.mul_comm (2 ^ 32)), Z.mod_add by lia.
  rewrite Z.mod_mod by lia.
  rewrite Z.add_mod_idemp_l by lia.
  rewrite Z.mod_small; lia.
Qed.

Example ceil_half : Double.ceil 0.5%float = Some 1.
Proof. vm_compute. reflexivity. Qed.

Example ceil_minus_half : Double.ceil (-0.5)%float = Some 0.
Proof. vm_compute. reflexivity. Qed.

Example ceil_seven_thirds : Double.ceil (7 / 3)%float = Some 3.
Proof. vm_compute. reflexivity. Qed.

Example trunc_down : Double.trunc 10.5%float = Some 10.
Proof. vm_compute. reflexivity. Qed.

Example trunc_neg : Double.trunc (-2.75)%float = Some (-2).
Proof. vm_compute. reflexivity. Qed.

Example of_Z_neg : Double.of_Z (-3) = (-3)%float.
Proof. vm_compute. reflexivity. Qed.

Example to_int_nan : Double.to_int (Double.ceil nan) = Int.min_int.
Proof. vm_compute. reflexivity. Qed.

Example get_operators_two :
  get_operators worm_two_distinct =
  [ mkpsi (mkOperatorTime 0.25%float 200) CREATION_OP 0;
    mkpsi (mkOperatorTime 0.25%float 100) ANNIHILATION_OP 1;
    mkpsi (mkOperatorTime 0.75%float 400) CREATION_OP 2;
    mkpsi (mkOperatorTime 0.75%float 200) ANNIHILATION_OP 3 ].
Proof. vm_compute. reflexivity. Qed.

(** * Reasoning about the driver *)

(** ** Inversion of sequenced computations *)

Lemma bind_Ok {S A B} (m : M S A) (k : A -> M S B) s b s'' :
  (m ≫= k) s = Ok b s'' <-> exists a s', m s = Ok a s' /\ k a s' = Ok b s''.
Proof.
  unfold mbind, M_bind. destruct (m s) as [a s'|e]; split.
  - intros H. by exists a, s'.
  - by intros (a' & s1 & [= -> ->] & H).
  - done.
  - by intros (a' & s1 & [=] & _).
Qed.

Lemma bind_Err {S A B} (m : M S A) (k : A -> M S B) s e :
  (m ≫= k) s = Err e <->
  m s = Err e \/ exists a s', m s = Ok a s' /\ k a s' = Err e.
Proof.
  unfold mbind, M_bind. destruct (m s) as [a s'|e']; split.
  - intros H. right. by exists a, s'.
  - intros [[=]|(a' & s1 & [= -> ->] & H)]. done.
  - intros [= ->]. by left.
  - intros [[= ->]|(a' & s1 & [=] & _)]. done.
Qed.

(** Symbolic execution of the primitive commands. *)

Lemma modify_bind {S B} (g : S -> S) (k : unit -> M S B) s :
  (modify g ≫= k) s = k tt (g s).
Proof. reflexivity. Qed.

Lemma gets_bind {S A B} (g : S -> A) (k : A -> M S B) s :
  (gets g ≫= k) s = k (g s) s.
Proof. reflexivity. Qed.

Lemma ret_bind {S A B} (a : A) (k : A -> M S B) s : (mret a ≫= k) s = k a s.
Proof. reflexivity. Qed.

Lemma bind_assoc {S A B C} (m : M S A) (k : A -> M S B) (h : B -> M S C) s :
  ((m ≫= k) ≫= h) s = (m ≫= fun a => k a ≫= h) s.
Proof. unfold mbind, M_bind. by destruct (m s). Qed.

(** ** Views of the walker and what leaves them alone *)

Section Frames.

Context {World : Type} `{Env : Environment World}.

Context {X : Type} (f : Walker World -> X).

Context (P : Event -> Prop) (E : Error -> Prop).

Lemma sat_ret {A} (a : A) : sat f P E (mret a).
Proof. intros st. split; [done|]. exists []. by rewrite app_nil_r. Qed.

Lemma sat_gets {A} (g : Walker World -> A) : sat f P E (gets g).
Proof. intros st. split; [done|]. exists []. by rewrite app_nil_r. Qed.

Lemma sat_throw {A} e : E e -> sat f P E (throw (A := A) e).
Proof. intros He st. exact He. Qed.

Lemma sat_bind {A B} (m : M (Walker World) A) (k : A -> M (Walker World) B) :
  sat f P E m -> (forall a, sat f P E (k a)) -> sat f P E (m ≫= k).
Proof.
  intros Hm Hk st. unfold mbind, M_bind.
  specialize (Hm st). destruct (m st) as [a st1|e]; [|done].
  specialize (Hk a st1). destruct (k a st1) as [b st2|e]; [|done].
  destruct Hm as (Hf1 & ev1 & Ht1 & HP1), Hk as (Hf2 & ev2 & Ht2 & HP2).
  split; [congruence|]. exists (ev1 ++ ev2).
  rewrite Ht2, Ht1, (assoc_L (++)). split; [done|]. by apply Forall_app.
Qed.

Lemma sat_when (b : bool) m : sat f P E m -> sat f P E (when b m).
Proof. destruct b; [done|]. intros _. apply sat_ret. Qed.

Lemma sat_for_each {A} (l : list A) body :
  (forall x, sat f P E (body x)) -> sat f P E (for_each l body).
Proof.
  intros Hb. induction l as [|x l IH]; simpl.
  - apply sat_ret.
  - apply sat_bind; [apply Hb|]. intros _. exact IH.
Qed.

Lemma sat_for_loop lo hi body :
  (forall x, sat f P E (body x)) -> sat f P E (for_loop lo hi body).
Proof. apply sat_for_each. Qed.

Lemma sat_modify g :
  (forall st, f (g st) = f st) -> (forall st, trace (g st) = trace st) ->
  sat f P E (modify g).
Proof.
  intros Hf Ht st. simpl. split; [done|]. exists []. by rewrite app_nil_r.
Qed.

Lemma sat_assert expr b :
  (NDEBUG = false -> b = false -> E (assertion_failed expr)) ->
  sat f P E (assert expr b).
Proof.
  intros He. unfold assert. destruct NDEBUG; [apply sat_ret|].
  destruct b; [apply sat_ret|]. apply sat_throw. by apply He.
Qed.

Context (Hf : Frame f).

Lemma sat_record e : P e -> sat f P E (modify (record e)).
Proof.
  intros HP st. simpl. split; [apply Hf|]. exists [e].
  split; [done|]. by apply Forall_singleton.
Qed.

Lemma sat_enter r : P (Enter r) -> sat f P E (enter r).
Proof. apply sat_record. Qed.

Lemma sat_output m : P (Output m) -> sat f P E (output m).
Proof. apply sat_record. Qed.

Lemma sat_call c : P (Call c) -> sat f P E (call c).
Proof.
  intros HP st. simpl. split.
  - by rewrite (frame_record _ Hf), (frame_world _ Hf).
  - exists [Call c]. split; [done|]. by apply Forall_singleton.
Qed.

Lemma sat_draw_random : sat f P E draw_random.
Proof.
  intros st. simpl. split; [apply Hf|]. exists []. by rewrite app_nil_r.
Qed.

Lemma sat_draw_uniform_int a b : sat f P E (draw_uniform_int a b).
Proof.
  intros st. simpl. split; [apply Hf|]. exists []. by rewrite app_nil_r.
Qed.

Lemma sat_sanity_check : Forall P sanity_events -> sat f P E sanity_check.
Proof.
  unfold sanity_check, sanity_events. destruct NDEBUG; [intros _; apply sat_ret|].
  intros HP. apply sat_bind; [|intros _]; apply sat_call.
  - by eapply Forall_inv.
  - eapply Forall_inv, Forall_inv_tail, HP.
Qed.

End Frames.

Lemma sat_weaken {World} `{Env : Environment World} {X} (f : Walker World -> X)
  (P P' : Event -> Prop) (E E' : Error -> Prop) {A} (m : M (Walker World) A) :
  (forall e, P e -> P' e) -> (forall e, E e -> E' e) ->
  sat f P E m -> sat f P' E' m.
Proof.
  intros HP HE Hm st. specialize (Hm st). destruct (m st); [|by apply HE].
  destruct Hm as (Hf & evs & Ht & Hall). split; [done|]. exists evs.
  split; [done|]. eapply Forall_impl; eauto.
Qed.

Lemma core_frame {World} `{Env : Environment World} : Frame (core (World := World)).
Proof. by split. Qed.

Lemma core_frame_weights {World} `{Env : Environment World} :
  FrameWeights (core (World := World)).
Proof. by split. Qed.


Ltac sat_step_with Hf Hw :=
  lazymatch goal with
  | |- sat _ _ _ (mbind _ _) => apply sat_bind; [|intros ?]
  | |- sat _ _ _ (mret _) => apply sat_ret
  | |- sat _ _ _ (gets _) => apply sat_gets
  | |- sat _ _ _ is_thermalized => apply sat_gets
  | |- sat _ _ _ (when _ _) => apply sat_when
  | |- sat _ _ _ (for_loop _ _ _) => apply sat_for_loop; intros ?
  | |- sat _ _ _ (for_each _ _) => apply sat_for_each; intros ?
  | |- sat _ _ _ (call _) => apply sat_call; [exact Hf | simpl; tauto]
  | |- sat _ _ _ (enter _) => apply sat_enter; [exact Hf | simpl; tauto]
  | |- sat _ _ _ (output _) => apply sat_output; [exact Hf | simpl; tauto]
  | |- sat _ _ _ draw_random => apply sat_draw_random; exact Hf
  | |- sat _ _ _ (draw_uniform_int _ _) => apply sat_draw_uniform_int; exact Hf
  | |- sat _ _ _ (if ?b then _ else _) => destruct b
  | |- sat _ _ _ (match ?x with _ => _ end) => destruct x
  | |- sat _ _ _ (modify _) =>
      apply sat_modify; [intros; first [apply Hw | apply Hf] | done]
  end.

Section Routines.

Context {World : Type} `{Env : Environment World}.

Context {X : Type} (f : Walker World -> X) (Hf : Frame f) (Hw : FrameWeights f).

Ltac sat_step := sat_step_with Hf Hw.

Lemma sat_adjust_worm_space_weight :
  sat f worm_sector (fun _ => False) adjust_worm_space_weight.
Proof.
  unfold adjust_worm_space_weight, apply_worm_space_weights, apply_weight_ratio.
  repeat sat_step.
Qed.

Lemma sat_transition_step : sat f worm_sector worm_assertion transition_step.
Proof.
  pose proof sat_adjust_worm_space_weight as Ha.
  eapply (sat_weaken _ _ worm_sector _ worm_assertion) in Ha; [|done..].
  unfold transition_step. repeat first [exact Ha | sat_step].
  apply sat_assert. by split.
Qed.

Lemma sat_sanity f_events (P : Event -> Prop) E :
  f_events = sanity_events -> Forall P f_events -> sat f P E sanity_check.
Proof. intros ->. by apply sat_sanity_check. Qed.

Lemma sanity_events_sweep : Forall sweep_event sanity_events.
Proof. unfold sanity_events. destruct NDEBUG; repeat constructor. Qed.

Lemma sanity_events_global : Forall global_move_event sanity_events.
Proof. unfold sanity_events. destruct NDEBUG; repeat constructor. Qed.

(** [transition_between_config_spaces] announces itself and then only
    touches the worm sector. *)
Lemma transition_spec st :
  match transition_between_config_spaces st with
  | Ok _ st' =>
      f st' = f st /\
      exists evs,
        trace st' = trace st ++ Enter R_transition_between_config_spaces :: evs /\
        Forall worm_sector evs
  | Err e => worm_assertion e
  end.
Proof.
  pose proof sat_transition_step as Hs.
  assert (Hrest : sat f worm_sector worm_assertion
            (wt ← gets (fun st => worm_types (wiring st));
             if (length wt =? 0)%nat then mret tt else
             F ← gets FLAVORS;
             for_loop 0 F (fun _ => transition_step))).
  { repeat first [exact Hs | sat_step]. }
  specialize (Hrest (record (Enter R_transition_between_config_spaces) st)).
  unfold transition_between_config_spaces, enter. rewrite modify_bind.
  destruct (_ ≫= _) as [a st'|e]; [|done].
  destruct Hrest as (Hfr & evs & Ht & Hall). split.
  - by rewrite Hfr, (frame_record _ Hf).
  - exists evs. split; [|done]. rewrite Ht. simpl. by rewrite <- (assoc_L (++)).
Qed.

Lemma sat_transition_between_config_spaces :
  sat f transition_event worm_assertion transition_between_config_spaces.
Proof.
  intros st. pose proof (transition_spec st) as H.
  destruct (transition_between_config_spaces st); [|done].
  destruct H as (Hfr & evs & Ht & Hall). split; [done|].
  exists (Enter R_transition_between_config_spaces :: evs). split; [done|].
  constructor; [by left|]. eapply Forall_impl; [done|]. intros e He. by right.
Qed.

Lemma sat_do_one_sweep : sat f sweep_event sweep_assertion do_one_sweep.
Proof.
  pose proof sat_transition_between_config_spaces as Ht.
  eapply (sat_weaken _ _ sweep_event _ sweep_assertion) in Ht; cycle 1.
  { intros e [->|He]; [simpl; by left|].
    destruct e as [[]| |]; simpl in *; unfold transition_event; simpl; tauto. }
  { intros e [? ->]. split; [done|]. by right. }
  pose proof (sat_sanity _ sweep_event sweep_assertion eq_refl
                sanity_events_sweep) as Hc.
  unfold do_one_sweep, move_step, ins_rem_step.
  repeat first [exact Ht | exact Hc | sat_step | apply sat_assert; split; [done|by left] ].
Qed.

Lemma sat_global_update_moves :
  sat f global_move_event worm_assertion global_update_moves.
Proof.
  pose proof sat_transition_between_config_spaces as Ht.
  eapply (sat_weaken _ _ global_move_event _ worm_assertion) in Ht; cycle 1.
  { intros e [->|He]; [simpl; by left|].
    destruct e as [[]| |]; simpl in *; unfold transition_event; simpl; tauto. }
  { done. }
  pose proof (sat_sanity _ global_move_event worm_assertion eq_refl
                sanity_events_global) as Hc.
  unfold global_update_moves.
  repeat first [exact Ht | exact Hc | sat_step].
Qed.


(** A routine that announces itself and then runs [rest]. *)
Lemma entered (P : Event -> Prop) (E : Error -> Prop) (r : Routine)
  (rest : M (Walker World) unit) st :
  sat f P E rest ->
  match rest (record (Enter r) st) with
  | Ok _ st' =>
      f st' = f st /\
      exists evs, trace st' = trace st ++ Enter r :: evs /\ Forall P evs
  | Err e => E e
  end.
Proof.
  intros Hrest. specialize (Hrest (record (Enter r) st)).
  destruct (rest _) as [a st'|e]; [|done].
  destruct Hrest as (Hfr & evs & Ht & Hall). split.
  - by rewrite Hfr, (frame_record _ Hf).
  - exists evs. split; [|done]. rewrite Ht. simpl. by rewrite <- (assoc_L (++)).
Qed.


End Routines.

(** * The correlation worm *)

Lemma get_operators_fold (w : CorrelationWorm) (l : list nat) (acc : list psi) :
  foldl (get_operators_step w) acc l =
  acc ++ concat (map (fun it =>
                   [mkpsi (mkOperatorTime (times_ w it)
                             (Int.mul 200 (Int.add (Z.of_nat it) 1)))
                      CREATION_OP (flavors_ w (2 * it)%nat);
                    mkpsi (mkOperatorTime (times_ w it)
                             (Int.mul 100 (Int.add (Z.of_nat it) 1)))
                      ANNIHILATION_OP (flavors_ w (2 * it + 1)%nat)]) l).
Proof.
  revert acc. induction l as [|it l IH]; intros acc; simpl.
  - by rewrite app_nil_r.
  - rewrite IH. unfold get_operators_step. by rewrite <- !(assoc_L (++)).
Qed.

Lemma lookup_pairs {A} (c a : nat -> A) (s n j : nat) :
  (j < n)%nat ->
  concat (map (fun i => [c i; a i]) (seq s n)) !! (2 * j)%nat = Some (c (s + j)%nat) /\
  concat (map (fun i => [c i; a i]) (seq s n)) !! (2 * j + 1)%nat = Some (a (s + j)%nat).
Proof.
  revert s j. induction n as [|n IH]; intros s j Hj; [lia|].
  destruct j as [|j]; simpl.
  - rewrite Nat.add_0_r. done.
  - replace (j + S (j + 0))%nat with (S (2 * j)) by lia. simpl.
    destruct (IH (S s) j) as [H1 H2]; [lia|].
    replace (s + S j)%nat with (S s + j)%nat by lia.
    replace (j + (j + 0))%nat with (2 * j)%nat by lia. done.
Qed.

Lemma length_pairs {A} (c a : nat -> A) (l : list nat) :
  length (concat (map (fun i => [c i; a i]) l)) = (2 * length l)%nat.
Proof. induction l as [|i l IH]; simpl; [done|]. rewrite IH. lia. Qed.

Lemma tie_breaker_exact (c : Z) (n it : nat) :
  0 <= c <= 200 -> 200 * Z.of_nat n <= Int.max_int -> (it < n)%nat ->
  Int.mul c (Int.add (Z.of_nat it) 1) = c * (Z.of_nat it + 1).
Proof.
  unfold Int.mul, Int.add, Int.max_int. intros Hc Hn Hit.
  rewrite (wrap_in_range (Z.of_nat it + 1)).
  - apply wrap_in_range. unfold Int.in_range, Int.min_int, Int.max_int. nia.
  - unfold Int.in_range, Int.min_int, Int.max_int. lia.
Qed.

Lemma get_operators_lookup (w : CorrelationWorm) (i : nat) :
  200 * Z.of_nat (NumTimes w) <= Int.max_int -> (i < NumTimes w)%nat ->
  get_operators w !! (2 * i)%nat = Some (creation_at w i) /\
  get_operators w !! (2 * i + 1)%nat = Some (annihilation_at w i).
Proof.
  intros Hn Hi. unfold get_operators. rewrite get_operators_fold, app_nil_l.
  destruct (lookup_pairs
    (fun it => mkpsi (mkOperatorTime (times_ w it)
                        (Int.mul 200 (Int.add (Z.of_nat it) 1)))
                 CREATION_OP (flavors_ w (2 * it)%nat))
    (fun it => mkpsi (mkOperatorTime (times_ w it)
                        (Int.mul 100 (Int.add (Z.of_nat it) 1)))
                 ANNIHILATION_OP (flavors_ w (2 * it + 1)%nat))
    0 (NumTimes w) i Hi) as [H1 H2].
  rewrite H1, H2. unfold creation_at, annihilation_at. rewrite !Nat.add_0_l.
  by rewrite !(tie_breaker_exact _ (NumTimes w)) by (done || lia).
Qed.

Lemma get_operators_length (w : CorrelationWorm) :
  length (get_operators w) = (2 * NumTimes w)%nat.
Proof.
  unfold get_operators. rewrite get_operators_fold, app_nil_l.
  by rewrite length_pairs, length_seq.
Qed.

(** Every position of the result is the creation or the annihilation operator
    of the time index [p / 2]. *)
Lemma get_operators_position (w : CorrelationWorm) (p : nat) (o : psi) :
  200 * Z.of_nat (NumTimes w) <= Int.max_int ->
  get_operators w !! p = Some o ->
  exists i, (i < NumTimes w)%nat /\
    ((p = 2 * i /\ o = creation_at w i) \/
     (p = 2 * i + 1 /\ o = annihilation_at w i))%nat.
Proof.
  intros Hn Hp. pose proof (lookup_lt_Some _ _ _ Hp) as Hlt.
  rewrite get_operators_length in Hlt.
  exists (p / 2)%nat. pose proof (Nat.div_mod_eq p 2) as Hd.
  pose proof (Nat.mod_upper_bound p 2) as Hm.
  assert (Hi : (p / 2 < NumTimes w)%nat) by lia.
  split; [done|].
  destruct (get_operators_lookup w (p / 2) Hn Hi) as [H1 H2].
  destruct (decide (p `mod` 2 = 0)%nat) as [H0|H0].
  - left. assert (Hp2 : p = (2 * (p / 2))%nat) by lia. split; [done|].
    rewrite <- Hp2 in H1. congruence.
  - right. assert (Hp2 : p = (2 * (p / 2) + 1)%nat) by lia. split; [done|].
    rewrite <- Hp2 in H2. congruence.
Qed.

(** C8 (as amended).  For a worm whose tie-breakers fit an [int],
    [get_operators] returns [2 * NumTimes] operators; the operators at
    positions [2i] and [2i+1] are the creation operator with tie-breaker
    [200 (i+1)] and the annihilation operator with tie-breaker [100 (i+1)],
    both at [times_[i]]; and two returned operators at different positions
    never share their (time, tie-breaker) provided [times_[i]] differs from
    [times_[2i+1]] for every [i] with [2i+1 < NumTimes]. *)
Theorem get_operators_tie_breakers (w : CorrelationWorm) :
  200 * Z.of_nat (NumTimes w) <= Int.max_int ->
  length (get_operators w) = (2 * NumTimes w)%nat /\
  (forall i, (i < NumTimes w)%nat ->
     get_operators w !! (2 * i)%nat = Some (creation_at w i) /\
     get_operators w !! (2 * i + 1)%nat = Some (annihilation_at w i)) /\
  (forall teq : float -> float -> Prop,
     (forall i, (2 * i + 1 < NumTimes w)%nat ->
        ~ teq (times_ w i) (times_ w (2 * i + 1)%nat) /\
        ~ teq (times_ w (2 * i + 1)%nat) (times_ w i)) ->
     forall p q o1 o2,
       p <> q ->
       get_operators w !! p = Some o1 -> get_operators w !! q = Some o2 ->
       ~ share teq o1 o2).
Proof.
  intros Hn. split; [apply get_operators_length|].
  split; [intros i Hi; by apply get_operators_lookup|].
  intros teq Hteq p q o1 o2 Hpq Hp Hq [Ht Hs].
  destruct (get_operators_position w p o1 Hn Hp) as (i & Hi & Hpi).
  destruct (get_operators_position w q o2 Hn Hq) as (j & Hj & Hqj).
  destruct Hpi as [[-> ->]|[-> ->]], Hqj as [[-> ->]|[-> ->]];
    simpl in Hs, Ht.
  - assert (i = j) by lia. subst. done.
  - assert (j = (2 * i + 1)%nat) by lia. subst j.
    by destruct (Hteq i Hj) as [H1 _].
  - assert (i = (2 * j + 1)%nat) by lia. subst i.
    by destruct (Hteq j Hi) as [_ H2].
  - assert (i = j) by lia. subst. done.
Qed.

Lemma get_operators_tie_breakers_witness :
  200 * Z.of_nat (NumTimes worm_two_distinct) <= Int.max_int /\
  length (get_operators worm_two_distinct) = 4%nat /\
  forall p q o1 o2, p <> q ->
    get_operators worm_two_distinct !! p = Some o1 ->
    get_operators worm_two_distinct !! q = Some o2 ->
    ~ share eq o1 o2.
Proof.
  assert (H : 200 * Z.of_nat (NumTimes worm_two_distinct) <= Int.max_int)
    by (vm_compute; discriminate).
  split; [exact H|].
  destruct (get_operators_tie_breakers worm_two_distinct H) as (Hlen & _ & Hd).
  split; [exact Hlen|]. apply Hd. intros i Hi. simpl in Hi.
  assert (i = 0%nat) as -> by lia. vm_compute. split; intros [=].
Defined.

(** C8 (as stated) fails: with two coinciding time points the creation
    operator of index 0 and the annihilation operator of index 1 both carry
    the tie-breaker 200. *)
Lemma get_operators_shared_tie_breaker :
  exists p q o1 o2,
    p <> q /\
    get_operators worm_two_coincident !! p = Some o1 /\
    get_operators worm_two_coincident !! q = Some o2 /\
    op_time o1 = op_time o2 /\ share eq o1 o2.
Proof.
  exists 0%nat, 3%nat, (creation_at worm_two_coincident 0),
    (annihilation_at worm_two_coincident 1).
  split; [lia|]. by vm_compute.
Qed.

(** * The sweep loop *)

Ltac proj :=
  cbn [par BETA SITES SPINS FLAVORS N_meas thermalization_time start_time
       verbose wiring N_win_standard sweeps thermalized
       config_space_extra_weight worm_space_extra_weight_map
       num_steps_in_config_space min_pert_order_hist sliding_window world trace
       record set_world set_N_win_standard set_sweeps set_thermalized
       set_config_space_extra_weight set_worm_space_extra_weight_map
       set_num_steps_in_config_space set_min_pert_order_hist
       set_thermalization_time set_wiring].

Ltac run :=
  cbn beta;
  repeat (first [rewrite modify_bind | rewrite gets_bind | rewrite ret_bind];
          cbn beta).

Ltac split_when :=
  match goal with
  | |- context [(when ?b ?m ≫= ?k) ?s] =>
      destruct b eqn:?;
      [change ((when true m ≫= k) s) with ((m ≫= k) s)
      |change ((when false m ≫= k) s) with (k tt s)]
  | |- context [when ?b ?m ?s] =>
      destruct b eqn:?;
      [change (when true m s) with (m s)
      |change (when false m s) with (Ok tt s)]
  end.

Section Driver.

Context {World : Type} `{Env : Environment World}.

Implicit Types st : Walker World.

Lemma assert_true_bind {B} expr (k : unit -> M (Walker World) B) st :
  (assert expr true ≫= k) st = k tt st.
Proof. unfold assert. by destruct NDEBUG. Qed.

Lemma assert_bind {B} expr b (k : unit -> M (Walker World) B) st :
  (assert expr b ≫= k) st =
  if NDEBUG || b then k tt st else Err (assertion_failed expr).
Proof. unfold assert. by destruct NDEBUG, b. Qed.

Lemma not_in_class (P : Event -> Prop) (e : Event) (evs : list Event) :
  Forall P evs -> ~ P e -> e ∉ evs.
Proof. intros Hall HP Hin. apply HP. rewrite Forall_forall in Hall. auto. Qed.

(** [update_MC_parameters], entered by a thermalized walker, stops at its
    first statement. *)
Lemma update_MC_parameters_refuses st :
  thermalized st = true -> update_MC_parameters st = Err refusal.
Proof.
  intros Hth. unfold update_MC_parameters, enter, is_thermalized. run. proj.
  rewrite Hth, assert_bind. unfold refusal. destruct NDEBUG; [|done].
  simpl. run. proj. by rewrite Hth.
Qed.

(** [update_MC_parameters], entered by a walker that is not thermalized,
    returns. *)
Lemma update_MC_parameters_runs st :
  thermalized st = false ->
  exists st',
    update_MC_parameters st = Ok tt st' /\
    tuning_frame st' = tuning_frame st /\
    N_win_standard st' = tuned_window_size st /\
    thermalized st' = time_is_up st' /\
    exists evs,
      trace st' = trace st ++ Enter R_update_MC_parameters :: evs /\
      Forall tuning_event evs.
Proof.
  intros Hth. unfold update_MC_parameters, enter, is_thermalized, call, output.
  run. proj. rewrite Hth. cbn [negb]. rewrite assert_true_bind. run. proj.
  rewrite Hth. run. proj. split_when; cbn beta; run; proj.
  all: split_when.
  all: eexists; split; [reflexivity|]; unfold time_is_up, tuned_window_size; proj.
  all: (split; [reflexivity|]); (split; [reflexivity|]).
  all: split; [by rewrite ?Heqb0|].
  all: eexists; rewrite <- ?(assoc_L (++)); (split; [reflexivity|]).
  all: by repeat constructor.
Qed.

Lemma bind_run_Ok {A B} (m : M (Walker World) A) (k : A -> M (Walker World) B)
  st a st' :
  m st = Ok a st' -> (m ≫= k) st = k a st'.
Proof. unfold mbind, M_bind. by intros ->. Qed.

Lemma bind_run_Err {A B} (m : M (Walker World) A) (k : A -> M (Walker World) B)
  st e :
  m st = Err e -> (m ≫= k) st = Err e.
Proof. unfold mbind, M_bind. by intros ->. Qed.

(** [sanity_check] returns, and records [sanity_events]; of the two calls it
    makes in a debug build only the second is handed the window. *)
Lemma sanity_check_runs st :
  exists st',
    sanity_check st = Ok tt st' /\
    core st' = core st /\ weights st' = weights st /\
    trace st' = trace st ++ sanity_events /\
    (NDEBUG = true -> sliding_window st' = sliding_window st) /\
    (NDEBUG = false ->
     sliding_window st' =
     (collaborate mc_config_sanity_check
        (collaborate mc_config_check_nan (world st) (sliding_window st)).1
        (sliding_window st)).2).
Proof.
  unfold sanity_check, sanity_events, call. destruct NDEBUG.
  - exists st. by rewrite app_nil_r.
  - run. eexists. split; [reflexivity|]. proj. rewrite <- (assoc_L (++)).
    by repeat split.
Qed.

(** *** The guarded calls *)

Lemma guarded_update_MC_parameters_spec st :
  match guarded_update_MC_parameters st with
  | Ok _ st' =>
      tuning_frame st' = tuning_frame st /\
      (thermalized st = true -> st' = st) /\
      (thermalized st = false ->
       N_win_standard st' = tuned_window_size st /\
       thermalized st' = time_is_up st') /\
      exists evs,
        trace st' = trace st ++ evs /\ Forall tuning_event evs /\
        (Enter R_update_MC_parameters ∈ evs <-> thermalized st = false)
  | Err e => False
  end.
Proof.
  unfold guarded_update_MC_parameters, is_thermalized. run.
  destruct (thermalized st) eqn:Hth; cbn [negb when].
  - simpl. split; [done|]. split; [done|]. split; [done|].
    exists []. rewrite app_nil_r. split; [done|]. split; [done|].
    split; [by intros ?%elem_of_nil|done].
  - destruct (update_MC_parameters_runs st Hth)
      as (st' & -> & Hfr & Hn & Ht & evs & Htr & Hall).
    split; [done|]. split; [done|]. split; [done|].
    exists (Enter R_update_MC_parameters :: evs). split; [done|].
    split; [by constructor|]. split; [done|]. intros _. by left.
Qed.

Lemma measure_every_step_spec st :
  thermalized st = true ->
  match measure_every_step st with
  | Ok _ st' =>
      core st' = core st /\
      exists evs,
        trace st' = trace st ++ Enter R_measure_every_step :: evs /\
        Forall measuring_event evs
  | Err e => e = runtime_error "Used unsupported worm"
  end.
Proof.
  intros Hth. unfold measure_every_step, enter, is_thermalized. run. proj.
  rewrite Hth, assert_true_bind. cbn beta.
  lazymatch goal with
  | |- match ?m (record (Enter ?r) ?s) with _ => _ end =>
      apply (entered core core_frame measuring_event
               (fun e => e = runtime_error "Used unsupported worm") r m s)
  end.
  pose proof (core_frame (World := World)) as Hf.
  pose proof (core_frame_weights (World := World)) as Hw.
  repeat first [sat_step_with Hf Hw | by apply sat_throw].
Qed.

Lemma guarded_measure_every_step_spec st :
  match guarded_measure_every_step st with
  | Ok _ st' =>
      core st' = core st /\
      exists evs,
        trace st' = trace st ++ evs /\ Forall measuring_event evs /\
        (Enter R_measure_every_step ∈ evs <-> thermalized st = true)
  | Err e => e = runtime_error "Used unsupported worm"
  end.
Proof.
  unfold guarded_measure_every_step, is_thermalized. run.
  destruct (thermalized st) eqn:Hth; cbn [when].
  - pose proof (measure_every_step_spec st Hth) as H.
    destruct (measure_every_step st) as [[] st'|e]; [|done].
    destruct H as (Hc & evs & Htr & Hall). split; [done|].
    exists (Enter R_measure_every_step :: evs). split; [done|].
    split; [by constructor|]. split; [done|]. intros _. by left.
  - simpl. split; [done|]. exists []. rewrite app_nil_r.
    split; [done|]. split; [done|]. split; [by intros ?%elem_of_nil|done].
Qed.

(** *** [global_updates] *)

Lemma global_updates_spec st :
  match global_updates st with
  | Ok _ st' =>
      core st' = core st /\
      (check_keeps_window_size ->
       get_n_window (sliding_window st') = get_n_window (sliding_window st)) /\
      exists mid,
        Forall global_move_event mid /\
        trace st' =
        trace st ++
        [Enter R_global_updates;
         Call (sliding_window_set_window_size 1 default_position_right_edge
                 default_direction_move)] ++
        mid ++ sanity_events ++
        [Call (sliding_window_set_window_size
                 (get_n_window (sliding_window st)) 0 ITIME_LEFT)] ++
        sanity_events
  | Err e => worm_assertion e
  end.
Proof.
  unfold global_updates, enter, call. run. proj.
  lazymatch goal with
  | |- match (_ ≫= _) ?s with _ => _ end => set (s1 := s)
  end.
  assert (Hc1 : core s1 = core st) by done.
  assert (Ht1 : trace s1 =
                trace st ++
                [Enter R_global_updates;
                 Call (sliding_window_set_window_size 1
                         default_position_right_edge default_direction_move)]).
  { subst s1. proj. by rewrite <- (assoc_L (++)). }
  clearbody s1.
  pose proof (sat_global_update_moves core core_frame core_frame_weights s1) as Hm.
  destruct (global_update_moves s1) as [[] s2|e] eqn:Hrun.
  2:{ by rewrite (bind_run_Err _ _ _ _ Hrun). }
  rewrite (bind_run_Ok _ _ _ _ _ Hrun).
  destruct Hm as (Hc2 & mid & Ht2 & Hmid).
  destruct (sanity_check_runs s2) as (s3 & Hs3 & Hc3 & _ & Ht3 & _).
  rewrite (bind_run_Ok _ _ _ _ _ Hs3). run.
  lazymatch goal with
  | |- match sanity_check ?s with _ => _ end => set (s4 := s)
  end.
  assert (Hc4 : core s4 = core s3) by done.
  assert (Ht4 : trace s4 =
                trace s3 ++
                [Call (sliding_window_set_window_size
                         (get_n_window (sliding_window st)) 0 ITIME_LEFT)])
    by done.
  assert (Hn4 : get_n_window (sliding_window s4) =
                get_n_window (sliding_window st)) by done.
  clearbody s4.
  destruct (sanity_check_runs s4) as (s5 & -> & Hc5 & _ & Ht5 & Hnd & Hd).
  split; [congruence|]. split.
  - intros Hkeep. destruct NDEBUG eqn:Hb.
    + by rewrite Hnd.
    + rewrite Hd by done. by rewrite Hkeep.
  - exists mid. split; [done|].
    rewrite Ht5, Ht4, Ht3, Ht2, Ht1. by rewrite <- !(assoc_L (++)).
Qed.

Lemma guarded_global_updates_spec st :
  match guarded_global_updates st with
  | Ok _ st' =>
      core st' = core st /\
      exists evs,
        trace st' = trace st ++ evs /\ Forall global_event evs /\
        (Enter R_global_updates ∈ evs <->
         Int.rem (sweeps st) (UPDATE_N_GLOBAL_UPDATES (par st)) = 0)
  | Err e => worm_assertion e
  end.
Proof.
  unfold guarded_global_updates. run.
  destruct (_ =? 0) eqn:Hrem; cbn [when].
  - pose proof (global_updates_spec st) as H.
    destruct (global_updates st) as [[] st'|e]; [|done].
    destruct H as (Hc & _ & mid & Hmid & Htr). split; [done|].
    eexists. split; [exact Htr|]. split.
    + constructor; [by left|]. constructor; [right; by left|].
      apply Forall_app. split.
      { eapply Forall_impl; [exact Hmid|]. intros e He. by right; right. }
      apply Forall_app. split.
      { eapply Forall_impl; [apply sanity_events_global|].
        intros e He. by right; right. }
      constructor; [right; by left|].
      eapply Forall_impl; [apply sanity_events_global|].
      intros e He. by right; right.
    + split; [intros _; lia|]. intros _. by left.
  - simpl. split; [done|]. exists []. rewrite app_nil_r.
    split; [done|]. split; [done|].
    split; [by intros ?%elem_of_nil|]. lia.
Qed.

(** *** One pass through the body of [update] *)

Ltac absent :=
  eapply not_in_class;
  [ first [eassumption | apply sanity_events_sweep]
  | cbv [global_event global_move_event transition_event sweep_event
         tuning_event measuring_event worm_sector is_resize];
    intuition discriminate ].

Lemma update_iteration_spec st :
  match update_iteration st with
  | Ok _ st' =>
      setup st' = setup st /\ sweeps st' = sweeps st + 1 /\
      (thermalized st = true ->
       thermalized st' = true /\ N_win_standard st' = N_win_standard st) /\
      exists evs,
        trace st' = trace st ++ evs /\
        (Enter R_global_updates ∈ evs <->
         Int.rem (sweeps st + 1) (UPDATE_N_GLOBAL_UPDATES (par st)) = 0) /\
        (Enter R_update_MC_parameters ∈ evs <-> thermalized st = false) /\
        (Enter R_measure_every_step ∈ evs <-> thermalized st' = true)
  | Err e => sweep_assertion e \/ e = runtime_error "Used unsupported worm"
  end.
Proof.
  unfold update_iteration, call. run.
  lazymatch goal with
  | |- match (_ ≫= _) ?s with _ => _ end => set (s1 := s)
  end.
  assert (Hc1 : core s1 = core (set_sweeps (sweeps st + 1) st)) by done.
  assert (Hw1 : weights s1 = weights st) by done.
  assert (Ht1 : trace s1 = trace st ++ [Call pert_order_recorder_push]) by done.
  clearbody s1.
  (* do_one_sweep *)
  pose proof (sat_do_one_sweep core core_frame core_frame_weights s1) as H2.
  destruct (do_one_sweep s1) as [[] s2|e] eqn:Hrun2.
  2:{ rewrite (bind_run_Err _ _ _ _ Hrun2). by left. }
  rewrite (bind_run_Ok _ _ _ _ _ Hrun2).
  destruct H2 as (Hc2 & ev2 & Ht2 & Hall2).
  (* global updates *)
  pose proof (guarded_global_updates_spec s2) as H3.
  destruct (guarded_global_updates s2) as [[] s3|e] eqn:Hrun3.
  2:{ rewrite (bind_run_Err _ _ _ _ Hrun3). left.
      destruct H3 as [? ->]. split; [done|]. by right. }
  rewrite (bind_run_Ok _ _ _ _ _ Hrun3).
  destruct H3 as (Hc3 & ev3 & Ht3 & Hall3 & Hin3).
  (* update_MC_parameters *)
  pose proof (guarded_update_MC_parameters_spec s3) as H4.
  destruct (guarded_update_MC_parameters s3) as [[] s4|e] eqn:Hrun4; [|done].
  rewrite (bind_run_Ok _ _ _ _ _ Hrun4).
  destruct H4 as (Hf4 & Hsame4 & Htuned4 & ev4 & Ht4 & Hall4 & Hin4).
  (* measure_every_step *)
  pose proof (guarded_measure_every_step_spec s4) as H5.
  destruct (guarded_measure_every_step s4) as [[] s5|e] eqn:Hrun5.
  2:{ rewrite (bind_run_Err _ _ _ _ Hrun5). by right. }
  rewrite (bind_run_Ok _ _ _ _ _ Hrun5).
  destruct H5 as (Hc5 & ev5 & Ht5 & Hall5 & Hin5).
  (* sanity_check *)
  destruct (sanity_check_runs s5) as (s6 & -> & Hc6 & Hw6 & Ht6 & _).
  assert (Hth3 : thermalized s3 = thermalized st).
  { unfold core in *. simplify_eq/=. congruence. }
  assert (Hth6 : thermalized s6 = thermalized s4).
  { unfold core in *. simplify_eq/=. congruence. }
  split; [|split; [|split]].
  - unfold core, setup, tuning_frame in *. simplify_eq/=. congruence.
  - unfold core, tuning_frame in *. simplify_eq/=. congruence.
  - intros Hth. rewrite <- Hth3 in Hth. rewrite (Hsame4 Hth) in *.
    unfold core in *. simplify_eq/=. split; congruence.
  - exists ([Call pert_order_recorder_push] ++ ev2 ++ ev3 ++ ev4 ++ ev5 ++
            sanity_events).
    split; [rewrite Ht6, Ht5, Ht4, Ht3, Ht2, Ht1; by rewrite <- !(assoc_L (++))|].
    assert (Hs23 : sweeps s2 = sweeps st + 1 /\ par s2 = par st).
    { unfold core in *. simplify_eq/=. split; congruence. }
    destruct Hs23 as [Hs2 Hp2]. rewrite Hs2, Hp2 in Hin3.
    rewrite Hth3 in Hin4. rewrite <- Hth6 in Hin5.
    assert (Hseg : forall r,
      Enter r ∈ [Call pert_order_recorder_push] ++ ev2 ++ ev3 ++ ev4 ++ ev5 ++
                sanity_events <->
      Enter r ∈ ev2 \/ Enter r ∈ ev3 \/ Enter r ∈ ev4 \/ Enter r ∈ ev5 \/
      Enter r ∈ sanity_events).
    { intros r. rewrite !elem_of_app, list_elem_of_singleton.
      split; [intros [?|?]; [done|tauto]|tauto]. }
    rewrite !Hseg. split; [|split].
    + assert (Enter R_global_updates ∉ ev2) by absent.
      assert (Enter R_global_updates ∉ ev4) by absent.
      assert (Enter R_global_updates ∉ ev5) by absent.
      assert (Enter R_global_updates ∉ sanity_events) by absent.
      tauto.
    + assert (Enter R_update_MC_parameters ∉ ev2) by absent.
      assert (Enter R_update_MC_parameters ∉ ev3) by absent.
      assert (Enter R_update_MC_parameters ∉ ev5) by absent.
      assert (Enter R_update_MC_parameters ∉ sanity_events) by absent.
      tauto.
    + assert (Enter R_measure_every_step ∉ ev2) by absent.
      assert (Enter R_measure_every_step ∉ ev3) by absent.
      assert (Enter R_measure_every_step ∉ ev4) by absent.
      assert (Enter R_measure_every_step ∉ sanity_events) by absent.
      tauto.
Qed.

(** *** The loop of [update] *)

Lemma for_each_invariant {A} (I : Walker World -> Prop) (E : Error -> Prop)
  (l : list A) (body : A -> M (Walker World) unit) :
  (forall x st,
     x ∈ l -> I st ->
     match body x st with Ok _ st' => I st' | Err e => E e end) ->
  forall st,
    I st -> match for_each l body st with Ok _ st' => I st' | Err e => E e end.
Proof.
  induction l as [|x l IH]; intros Hbody st HI; simpl; [done|].
  pose proof (Hbody x st ltac:(by left) HI) as Hx.
  destruct (body x st) as [[] st1|e] eqn:Hrun.
  - rewrite (bind_run_Ok _ _ _ _ _ Hrun). apply IH; [|done].
    intros y s Hy. apply Hbody. by right.
  - by rewrite (bind_run_Err _ _ _ _ Hrun).
Qed.

Lemma update_spec st :
  match update st with
  | Ok _ st' =>
      setup st' = setup st /\ (thermalized st = true -> thermalized st' = true)
  | Err e => sweep_assertion e \/ e = runtime_error "Used unsupported worm"
  end.
Proof.
  unfold update, for_loop. run.
  apply (for_each_invariant
           (fun s => setup s = setup st /\
                     (thermalized st = true -> thermalized s = true))); [|done].
  intros _ s _ [Hs Hth]. pose proof (update_iteration_spec s) as H.
  destruct (update_iteration s) as [[] s'|e]; [|done].
  destruct H as (Hs' & _ & Hth' & _). split; [congruence|].
  intros Ht. by apply Hth', Hth.
Qed.

(** * The adaptive window size *)

(** Whatever the recorded perturbation orders are, the value stored is
    [SLIDING_WINDOW.MAX]: the outer [std::max] receives the bound itself. *)
Lemma new_window_size_is_max (hist : list float) (flavors mx : Z) :
  Int.in_range mx -> new_window_size hist flavors mx = mx.
Proof.
  intros Hmx. unfold new_window_size. rewrite Z.max_l by lia.
  by apply size_t_round_trip.
Qed.

Lemma update_MC_parameters_window st :
  thermalized st = false -> Int.in_range (SLIDING_WINDOW_MAX (par st)) ->
  exists st',
    update_MC_parameters st = Ok tt st' /\
    N_win_standard st' = SLIDING_WINDOW_MAX (par st).
Proof.
  intros Hth Hmx.
  destruct (update_MC_parameters_runs st Hth) as (st' & Hrun & _ & Hn & _).
  exists st'. split; [done|]. rewrite Hn. by apply new_window_size_is_max.
Qed.

End Driver.

(** C1 (code defect).  On [empty_order_walker] the recorded average is 0, so
    the clipped value of the spec is 1, while [update_MC_parameters] stores
    5, the value of [SLIDING_WINDOW.MAX]. *)
Theorem window_size_ignores_average :
  exists st',
    update_MC_parameters (Env := toy_env true) empty_order_walker = Ok tt st' /\
    min_pert_order_hist st' = [0%float] /\
    spec_window_size (min_pert_order_hist st') (FLAVORS st')
      (SLIDING_WINDOW_MAX (par st')) = 1 /\
    N_win_standard st' = 5.
Proof. eexists. split; [vm_compute; reflexivity|]. by vm_compute. Qed.

(** * The thermalization gate *)

(** C2 (as amended).  [update_MC_parameters] returns exactly for a walker
    that is not thermalized, and then leaves [thermalized] equal to the
    comparison [time(NULL) - start_time > thermalization_time] (strict);
    within one pass of the loop of [update] the check is made iff the walker
    entered the pass not thermalized, a flag that is set stays set (also
    across a whole [update]), and [measure_every_step] is entered iff the
    flag is set once the check has been made. *)
Theorem thermalization_gate {World} `{Env : Environment World}
  (st : Walker World) :
  match update_MC_parameters st with
  | Ok _ st' => thermalized st = false /\ thermalized st' = time_is_up st'
  | Err e => thermalized st = true
  end /\
  match update_iteration st with
  | Ok _ st' =>
      (thermalized st = true -> thermalized st' = true) /\
      exists evs,
        trace st' = trace st ++ evs /\
        (Enter R_update_MC_parameters ∈ evs <-> thermalized st = false) /\
        (Enter R_measure_every_step ∈ evs <-> thermalized st' = true)
  | Err e => sweep_assertion e \/ e = runtime_error "Used unsupported worm"
  end /\
  match update st with
  | Ok _ st' => thermalized st = true -> thermalized st' = true
  | Err e => sweep_assertion e \/ e = runtime_error "Used unsupported worm"
  end.
Proof.
  split; [|split].
  - destruct (thermalized st) eqn:Hth.
    + by rewrite update_MC_parameters_refuses.
    + by destruct (update_MC_parameters_runs st Hth) as (st' & -> & _ & _ & ? & _).
  - pose proof (update_iteration_spec st) as H.
    destruct (update_iteration st) as [[] st'|e]; [|done].
    destruct H as (_ & _ & Hth & evs & Ht & _ & Hu & Hm).
    split; [intros ?; by apply Hth|]. by exists evs.
  - pose proof (update_spec st) as H.
    destruct (update st) as [[] st'|e]; [|done]. by destruct H.
Qed.

(** C2 (as stated) fails: elapsed time has reached [THERMALIZATION_TIME],
    and the flag is not set. *)
Lemma thermalized_not_set_on_equality :
  exists st',
    update_MC_parameters (Env := toy_env true) on_the_dot_walker = Ok tt st' /\
    (thermalization_time on_the_dot_walker <=?
     Double.of_Z (time_NULL (Environment := toy_env true) (world st') -
                  start_time on_the_dot_walker))%float = true /\
    thermalized st' = false.
Proof. eexists. split; [vm_compute; reflexivity|]. by vm_compute. Qed.

(** * The guard around [update_MC_parameters] *)

(** C10 (as amended).  Entered by a thermalized walker,
    [update_MC_parameters] fails with [refusal]: the [std::logic_error] when
    assertions are compiled out, the failed [assert(!is_thermalized())]
    otherwise; it fails in no other case.  Neither one pass of the loop of
    [update] nor a whole [update] ever fails that way. *)
Theorem update_MC_parameters_guarded {World} `{Env : Environment World}
  (st : Walker World) :
  match update_MC_parameters st with
  | Ok _ _ => thermalized st = false
  | Err e => thermalized st = true /\ e = refusal
  end /\
  match update_iteration st with
  | Ok _ _ => True
  | Err e =>
      e <> logic_error "called update_MC_parameters after thermalized" /\
      e <> assertion_failed "!is_thermalized()"
  end /\
  match update st with
  | Ok _ _ => True
  | Err e =>
      e <> logic_error "called update_MC_parameters after thermalized" /\
      e <> assertion_failed "!is_thermalized()"
  end.
Proof.
  assert (Hother : forall e,
    sweep_assertion e \/ e = runtime_error "Used unsupported worm" ->
    e <> logic_error "called update_MC_parameters after thermalized" /\
    e <> assertion_failed "!is_thermalized()").
  { intros e [[_ [-> | ->]] | ->]; by split. }
  split; [|split].
  - destruct (thermalized st) eqn:Hth.
    + by rewrite update_MC_parameters_refuses.
    + by destruct (update_MC_parameters_runs st Hth) as (st' & -> & _).
  - pose proof (update_iteration_spec st) as H.
    destruct (update_iteration st); [done|]. by apply Hother.
  - pose proof (update_spec st) as H.
    destruct (update st); [done|]. by apply Hother.
Qed.

(** C10 (as stated) fails in a build with assertions: the walker aborts on
    the assertion and no [std::logic_error] is thrown. *)
Lemma debug_build_aborts_on_assertion :
  thermalized thermalized_walker = true /\
  update_MC_parameters (Env := toy_env false) thermalized_walker =
  Err (assertion_failed "!is_thermalized()") /\
  update_MC_parameters (Env := toy_env false) thermalized_walker <>
  Err (logic_error "called update_MC_parameters after thermalized").
Proof. by vm_compute. Qed.

(** * Global updates and the window size *)




(** * The shape of a sweep *)

Section SweepShape.

Context {World : Type} `{Env : Environment World}.

Implicit Types st : Walker World.









End SweepShape.

Section SweepTheorem.

Context {World : Type} `{Env : Environment World}.

Implicit Types st : Walker World.





End SweepTheorem.


(** * Freezing the reweighting *)

Section Reweighting.

Context {World : Type} `{Env : Environment World}.

Implicit Types st : Walker World.





End Reweighting.

Section ZSpaceWeight.

Context {World : Type} `{Env : Environment World}.

Implicit Types st : Walker World.

(** Once the walker is thermalized, or without a flat-histogram object,
    [adjust_worm_space_weight] does nothing. *)
Lemma adjust_worm_space_weight_idle st :
  p_flat_histogram_config_space (wiring st) = false \/ thermalized st = true ->
  adjust_worm_space_weight st = Ok tt st.
Proof.
  intros H. unfold adjust_worm_space_weight, is_thermalized. run.
  by destruct H as [-> | ->]; [|rewrite orb_true_r].
Qed.




End ZSpaceWeight.



(** * Construction *)

Section Construction.

Context {World : Type} `{Env : Environment World}.

Implicit Types st : Walker World.

Lemma set_thermalization_time_same st :
  set_thermalization_time (thermalization_time st) st = st.
Proof. by destruct st. Qed.

Lemma check_thermalization_time_spec p w0 sw0 :
  check_thermalization_time (initial_members p w0 sw0) =
  if thermalization_too_long p then Err time_limit_error
  else Ok tt (set_thermalization_time (effective_thermalization_time p)
                (initial_members p w0 sw0)).
Proof.
  unfold check_thermalization_time, thermalization_too_long,
    effective_thermalization_time. run.
  change (thermalization_time (initial_members p w0 sw0))
    with (THERMALIZATION_TIME p).
  change (TIME_LIMIT (par (initial_members p w0 sw0))) with (TIME_LIMIT p).
  destruct (THERMALIZATION_TIME p <? 0)%float eqn:Hneg.
  - change ((when true ?m ≫= ?k) ?s) with ((m ≫= k) s). run. proj.
    lazymatch goal with
    | |- context [if ?b then throw _ else _] => destruct b; reflexivity
    end.
  - change ((when false ?m ≫= ?k) ?s) with (k tt s). run.
    change (thermalization_time (initial_members p w0 sw0))
      with (THERMALIZATION_TIME p).
    lazymatch goal with
    | |- context [if ?b then throw _ else _] => destruct b; [reflexivity|]
    end.
    change (Ok tt (initial_members p w0 sw0) =
            Ok tt (set_thermalization_time
                     (thermalization_time (initial_members p w0 sw0))
                     (initial_members p w0 sw0))).
    by rewrite set_thermalization_time_same.
Qed.

Lemma call_bind {B} c (k : unit -> M (Walker World) B) st :
  (call c ≫= k) st =
  k tt (record (Call c)
          (set_world (after_call c (world st) (sliding_window st)).1
             (after_call c (world st) (sliding_window st)).2 st)).
Proof. reflexivity. Qed.

Lemma calls_run (c : Z -> Collaborator) (l : list Z) st :
  exists st',
    for_each l (fun k => call (c k)) st = Ok tt st' /\
    members st' = members st /\
    trace st' = trace st ++ map (fun k => Call (c k)) l.
Proof.
  revert st. induction l as [|k l IH]; intros st; simpl.
  - exists st. by rewrite app_nil_r.
  - rewrite call_bind.
    lazymatch goal with
    | |- context [for_each l _ ?s] =>
        destruct (IH s) as (st' & Hr & Hm & Ht)
    end.
    exists st'. split; [done|]. split; [by rewrite Hm|].
    rewrite Ht. proj. by rewrite <- (assoc_L (++)).
Qed.

(** The outcome of the constructor. *)
Lemma constructor_spec p w0 sw0 :
  match HybridizationSimulation p w0 sw0 with
  | Ok _ st =>
      thermalization_too_long p = false /\
      1 <= UPDATE_MULTI_PAIR_INS_REM p /\
      par st = p /\
      thermalization_time st = effective_thermalization_time p /\
      N_win_standard st = 1 /\ thermalized st = false /\
      trace st = constructor_events p
  | Err e =>
      (thermalization_too_long p = true /\ e = time_limit_error) \/
      (thermalization_too_long p = false /\
       UPDATE_MULTI_PAIR_INS_REM p < 1 /\ e = rank_error)
  end.
Proof.
  unfold HybridizationSimulation, constructor_body.
  pose proof (check_thermalization_time_spec p w0 sw0) as Hc.
  destruct (thermalization_too_long p) eqn:Hlong.
  { rewrite (bind_run_Err _ _ _ _ Hc). by left. }
  rewrite (bind_run_Ok _ _ _ _ _ Hc). unfold call, output, initial_members.
  run. proj. fold (is_verbose p). unfold constructor_events.
  destruct (UPDATE_MULTI_PAIR_INS_REM p <? 1) eqn:Hk.
  - destruct (is_verbose p); cbn [when]; run; proj; rewrite Hk; right.
    all: split; [done|].
    all: split; [lia|done].
  - destruct (is_verbose p); cbn [when]; run; proj; rewrite Hk.
    all: unfold for_loop;
      lazymatch goal with
      | |- context [(for_each ?l ?b ≫= ?kk) ?s] =>
          destruct (calls_run new_ins_rem_updaters l s) as (s' & Hr & Hm & Ht);
          change b with (fun j => call (new_ins_rem_updaters j));
          rewrite (bind_run_Ok _ _ _ _ _ Hr)
      end; run; proj.
    all: unfold members, core in Hm; simplify_eq/=.
    all: repeat (split; [done || lia|]).
    all: rewrite Ht; by rewrite <- ?(assoc_L (++)).
Qed.

End Construction.



(** C6 (code defect).  With [TIME_LIMIT = 10.5] and the default
    [THERMALIZATION_TIME = -1] the constructor, reading [TIME_LIMIT] through
    [as<long>()], settles on 0.25 * 10 = 2.5 seconds, not on
    0.25 * 10.5 = 2.625. *)
Theorem default_thermalization_time_truncates :
  exists st,
    HybridizationSimulation (Env := toy_env true)
      (toy_params 10.5%float (-1)%float 5)
      (mkToyWorld 0 0 Z_FUNCTION 1 false) toy_window = Ok tt st /\
    TIME_LIMIT (par st) = 10.5%float /\
    thermalization_time st = 2.5%float /\
    (0.25 * TIME_LIMIT (par st))%float = 2.625%float.
Proof. eexists. split; [vm_compute; reflexivity|]. by vm_compute. Qed.

(** * The right edge of the window *)

(** In a build with assertions, [do_one_sweep] does not start unless the
    window sits at its right edge. *)
Lemma do_one_sweep_asserts_right_edge {World} `{Env : Environment World}
  (st : Walker World) :
  NDEBUG = false -> at_right_edge st = false ->
  do_one_sweep st = Err (assertion_failed right_edge_assertion).
Proof.
  intros Hd Hb. unfold do_one_sweep, enter. run. rewrite assert_bind.
  change (at_right_edge (record (Enter R_do_one_sweep) st))
    with (at_right_edge st).
  by rewrite Hd, Hb.
Qed.

Lemma assert_Ok {World} `{Env : Environment World} expr b (st : Walker World)
  u st' :
  NDEBUG = false -> assert expr b st = Ok u st' -> b = true /\ st' = st.
Proof.
  unfold assert. intros ->. destruct b; [|done]. by intros [= _ ->].
Qed.

(** In such a build a sweep that returns was entered with the window at its
    right edge and hands it back there: the first and the last assertion.
    Where the window stands after the moves in between is decided by
    [move_window_to_next_position]. *)
Lemma do_one_sweep_checks_right_edge {World} `{Env : Environment World}
  (st st' : Walker World) :
  NDEBUG = false -> do_one_sweep st = Ok tt st' ->
  at_right_edge st = true /\ at_right_edge st' = true.
Proof.
  intros Hd H. unfold do_one_sweep in H.
  apply bind_Ok in H as (? & s0 & [= _ <-] & H).
  apply bind_Ok in H as (b0 & ? & [= <- <-] & H).
  apply bind_Ok in H as (? & ? & [Hb0 ->]%assert_Ok & H); [|done].
  split; [exact Hb0|].
  do 9 (apply bind_Ok in H as (? & ? & _ & H)).
  apply bind_Ok in H as (b1 & s1 & [= <- <-] & H).
  apply assert_Ok in H as [Hb1 ->]; done.
Qed.

(** * Further properties of the driver *)

Ltac proj_all :=
  cbn [par BETA SITES SPINS FLAVORS N_meas thermalization_time start_time
       verbose wiring N_win_standard sweeps thermalized
       config_space_extra_weight worm_space_extra_weight_map
       num_steps_in_config_space min_pert_order_hist sliding_window world trace
       record set_world set_N_win_standard set_sweeps set_thermalized
       set_config_space_extra_weight set_worm_space_extra_weight_map
       set_num_steps_in_config_space set_min_pert_order_hist
       set_thermalization_time set_wiring] in *.

(** ** The correlation worm *)

Lemma lookup_pairs_inv {A} (c a : nat -> A) (n j : nat) (x : A) :
  concat (map (fun i => [c i; a i]) (seq 0 n)) !! j = Some x ->
  (j < 2 * n)%nat /\
  x = if Nat.even j then c (j / 2)%nat else a (j / 2)%nat.
Proof.
  intros Hj. pose proof (lookup_lt_Some _ _ _ Hj) as Hlt.
  rewrite length_pairs, length_seq in Hlt. split; [done|].
  pose proof (Nat.div_mod_eq j 2) as Hd.
  pose proof (Nat.mod_upper_bound j 2) as Hm.
  destruct (lookup_pairs c a 0 n (j / 2)) as [H1 H2]; [lia|].
  destruct (Nat.even j) eqn:He.
  - apply Nat.even_spec in He as [k ->].
    replace (2 * k / 2)%nat with k in * by (rewrite Nat.mul_comm, Nat.div_mul; lia).
    rewrite Hj in H1. by injection H1.
  - assert (Ho : Nat.odd j = true) by (by rewrite <- Nat.negb_even, He).
    apply Nat.odd_spec in Ho as [k ->].
    replace ((2 * k + 1) / 2)%nat with k in *.
    + rewrite Hj in H2. by injection H2.
    + rewrite Nat.mul_comm, Nat.div_add_l by lia. simpl. lia.
Qed.

(** X1. [get_operators] returns its operators in the order of the time
    indices: the operator at position [j] sits at time [times_[j / 2]],
    carries the flavor [flavors_[j]] and is a creation operator iff [j] is
    even; for [NumTimes = 0] the result is empty. *)
Theorem get_operators_layout (w : CorrelationWorm) :
  length (get_operators w) = (2 * NumTimes w)%nat /\
  (NumTimes w = 0%nat -> get_operators w = []) /\
  forall j o,
    get_operators w !! j = Some o ->
    time (op_time o) = times_ w (j / 2)%nat /\
    flavor o = flavors_ w j /\
    type o = if Nat.even j then CREATION_OP else ANNIHILATION_OP.
Proof.
  split; [apply get_operators_length|]. split.
  - unfold get_operators. by intros ->.
  - intros j o. unfold get_operators. rewrite get_operators_fold, app_nil_l.
    intros Hj. apply lookup_pairs_inv in Hj as [Hlt ->].
    pose proof (Nat.div_mod_eq j 2) as Hd.
    destruct (Nat.even j) eqn:He; cbn [op_time time flavor type].
    + split; [done|]. split; [|done]. f_equal.
      apply Nat.even_spec in He as [k ->].
      rewrite (Nat.mul_comm 2 k), Nat.div_mul; lia.
    + split; [done|]. split; [|done]. f_equal.
      assert (Ho : Nat.odd j = true) by (by rewrite <- Nat.negb_even, He).
      apply Nat.odd_spec in Ho as [k ->].
      rewrite (Nat.mul_comm 2 k), Nat.div_add_l by lia. simpl. lia.
Qed.

(** ** Construction *)

Section Built.

Context {World : Type} `{Env : Environment World}.
Implicit Types st : Walker World.

(** The members a successful construction leaves as the initialisers set
    them. *)
Lemma constructor_members p w0 sw0 :
  match HybridizationSimulation p w0 sw0 with
  | Ok _ st =>
      sweeps st = 0 /\ FLAVORS st = Int.mul (MODEL_SPINS p) (MODEL_SITES p) /\
      start_time st = time_NULL w0 /\ verbose st = negb (VERBOSE p =? 0) /\
      BETA st = MODEL_BETA p /\ N_meas st = MEASUREMENT_N_MEAS p
  | Err e => True
  end.
Proof.
  unfold HybridizationSimulation, constructor_body.
  pose proof (check_thermalization_time_spec p w0 sw0) as Hc.
  destruct (thermalization_too_long p) eqn:Hlong.
  { by rewrite (bind_run_Err _ _ _ _ Hc). }
  rewrite (bind_run_Ok _ _ _ _ _ Hc). unfold call, output, initial_members.
  run. proj. fold (is_verbose p).
  destruct (UPDATE_MULTI_PAIR_INS_REM p <? 1) eqn:Hk.
  - by destruct (is_verbose p); cbn [when]; run; proj; rewrite Hk.
  - destruct (is_verbose p); cbn [when]; run; proj; rewrite Hk.
    all: unfold for_loop;
      lazymatch goal with
      | |- context [(for_each ?l ?b ≫= ?kk) ?s] =>
          destruct (calls_run new_ins_rem_updaters l s) as (s' & Hr & Hm & Ht);
          change b with (fun j => call (new_ins_rem_updaters j));
          rewrite (bind_run_Ok _ _ _ _ _ Hr)
      end; run; proj.
    all: unfold members, core in Hm; by simplify_eq/=.
Qed.

End Built.

(** X2. The constructor checks the thermalization time first and the pair rank
    second, and fails on nothing else. A walker it builds has made no sweep,
    is not thermalized, starts with a window of one segment and the clock
    reading of its construction, and keeps a thermalization time that was
    given explicitly (not negative) as it was given. *)
Theorem constructor_outcome {World} `{Env : Environment World}
  (p : Params) (w0 : World) (sw0 : SlidingWindowManager) :
  match HybridizationSimulation p w0 sw0 with
  | Ok _ st =>
      thermalization_too_long p = false /\ 1 <= UPDATE_MULTI_PAIR_INS_REM p /\
      sweeps st = 0 /\ thermalized st = false /\ N_win_standard st = 1 /\
      FLAVORS st = Int.mul (MODEL_SPINS p) (MODEL_SITES p) /\
      start_time st = time_NULL w0 /\
      ((THERMALIZATION_TIME p <? 0)%float = false ->
       thermalization_time st = THERMALIZATION_TIME p)
  | Err e =>
      if thermalization_too_long p then e = time_limit_error
      else UPDATE_MULTI_PAIR_INS_REM p < 1 /\ e = rank_error
  end.
Proof.
  pose proof (constructor_spec p w0 sw0) as H.
  pose proof (constructor_members p w0 sw0) as H'.
  destruct (HybridizationSimulation p w0 sw0) as [[] st|e].
  - destruct H as (Hl & Hk & _ & Hth & Hn & Ht & _),
      H' as (Hs & HF & Hst & _).
    repeat (split; [done|]). intros Hneg. rewrite Hth.
    unfold effective_thermalization_time. by rewrite Hneg.
  - destruct H as [[-> ->]|(-> & Hk & ->)]; done.
Qed.


(** ** Doubles that are not numbers *)

Lemma SFcompare_refl (s : spec_float) :
  s <> S754_nan -> SFcompare s s = Some Eq.
Proof.
  destruct s as [b|b| |b m e]; intros Hs; try done; simpl.
  - by destruct b.
  - rewrite Z.compare_refl. destruct b; f_equal.
    + by rewrite Pos.compare_cont_refl.
    + by rewrite Pos.compare_cont_refl.
Qed.

Lemma is_nan_Prim2SF (x : float) : is_nan x = true -> Prim2SF x = S754_nan.
Proof.
  unfold is_nan. rewrite FloatAxioms.eqb_spec. unfold SFeqb. intros H.
  destruct (Prim2SF x) as [b|b| |b m e] eqn:Hx; [..|done|];
    rewrite SFcompare_refl in H; done.
Qed.

Lemma ltb_nan_l (x y : float) : is_nan x = true -> (x <? y)%float = false.
Proof.
  intros H. rewrite FloatAxioms.ltb_spec, (is_nan_Prim2SF x H). done.
Qed.

Lemma ltb_nan_r (x y : float) : is_nan y = true -> (x <? y)%float = false.
Proof.
  intros H. rewrite FloatAxioms.ltb_spec, (is_nan_Prim2SF y H).
  unfold SFltb. by destruct (Prim2SF x).
Qed.

(** X3. A [THERMALIZATION_TIME] that is not a number passes both checks of the
    constructor unchanged, and a walker that holds one is never marked as
    thermalized by [update_MC_parameters]: every comparison with it is false. *)
Theorem nan_thermalization_time_is_accepted {World} `{Env : Environment World}
  (p : Params) (w0 : World) (sw0 : SlidingWindowManager) (st : Walker World) :
  is_nan (THERMALIZATION_TIME p) = true ->
  is_nan (thermalization_time st) = true ->
  thermalized st = false ->
  match HybridizationSimulation p w0 sw0 with
  | Ok _ st0 => thermalization_time st0 = THERMALIZATION_TIME p
  | Err e => UPDATE_MULTI_PAIR_INS_REM p < 1 /\ e = rank_error
  end /\
  exists st',
    update_MC_parameters st = Ok tt st' /\
    thermalized st' = false /\
    thermalization_time st' = thermalization_time st.
Proof.
  intros Hp Hst Hth. split.
  - pose proof (constructor_spec p w0 sw0) as H.
    assert (Heff : effective_thermalization_time p = THERMALIZATION_TIME p).
    { unfold effective_thermalization_time. by rewrite ltb_nan_l. }
    assert (Hlong : thermalization_too_long p = false).
    { unfold thermalization_too_long. rewrite Heff. by apply ltb_nan_r. }
    destruct (HybridizationSimulation p w0 sw0) as [[] st0|e].
    + destruct H as (_ & _ & _ & -> & _). done.
    + destruct H as [[H _]|(_ & Hk & ->)]; [congruence|done].
  - destruct (update_MC_parameters_runs st Hth) as (st' & Hrun & Hf & _ & Ht & _).
    exists st'. split; [done|].
    assert (Hsame : thermalization_time st' = thermalization_time st).
    { unfold tuning_frame in Hf. by simplify_eq. }
    split; [|done]. rewrite Ht. unfold time_is_up. apply ltb_nan_l.
    by rewrite Hsame.
Qed.

Lemma nan_thermalization_time_is_accepted_witness :
  is_nan (THERMALIZATION_TIME (toy_params 100%float nan 5)) = true /\
  is_nan (thermalization_time nan_walker) = true /\
  thermalized nan_walker = false /\
  exists st',
    update_MC_parameters (Env := toy_env true) nan_walker = Ok tt st' /\
    thermalized st' = false.
Proof.
  assert (H1 : is_nan (THERMALIZATION_TIME (toy_params 100%float nan 5)) = true)
    by (by vm_compute).
  assert (H2 : is_nan (thermalization_time nan_walker) = true) by (by vm_compute).
  assert (H3 : thermalized nan_walker = false) by done.
  do 3 (split; [done|]).
  destruct (nan_thermalization_time_is_accepted (Env := toy_env true)
              (toy_params 100%float nan 5) (mkToyWorld 0 0 Z_FUNCTION 1 false)
              toy_window nan_walker H1 H2 H3) as [_ (st' & Hrun & Hth & _)].
  by exists st'.
Defined.

(** ** The loop of [update] *)

Section Counting.

Context {World : Type} `{Env : Environment World}.
Implicit Types st : Walker World.


Lemma draw_random_bind {B} (k : float -> M (Walker World) B) st :
  (draw_random ≫= k) st =
  k (random (world st)).1 (set_world (random (world st)).2 (sliding_window st) st).
Proof. reflexivity. Qed.

Lemma bump_spec (l : list float) (i : nat) :
  length (bump l i) = length l /\
  (forall x, l !! i = Some x -> bump l i !! i = Some (x + 1)%float) /\
  (forall j, j <> i -> bump l i !! j = l !! j).
Proof.
  unfold bump. destruct (l !! i) as [x|] eqn:Hi.
  - split; [apply length_insert|]. split.
    + intros y [= <-]. apply list_lookup_insert_eq. by eapply lookup_lt_Some.
    + intros j Hj. by apply list_lookup_insert_ne.
  - by repeat split.
Qed.

End Counting.


(** X5. [measure_every_step], on a thermalized walker, fails exactly in a
    configuration space its [switch] does not list; otherwise it adds 1.0 to
    the step counter of the space the configuration is in after the
    measurement and leaves the other counters alone. *)
Theorem measure_every_step_counts {World} `{Env : Environment World}
  (st : Walker World) :
  thermalized st = true ->
  (forall c, 0 <= get_config_space_position c) ->
  match measure_every_step st with
  | Ok _ st' =>
      let i :=
        Z.to_nat (get_config_space_position (current_config_space (world st'))) in
      current_config_space (world st) <> Unsupported_space /\
      length (num_steps_in_config_space st') =
      length (num_steps_in_config_space st) /\
      (forall x, num_steps_in_config_space st !! i = Some x ->
                 num_steps_in_config_space st' !! i = Some (x + 1)%float) /\
      (forall j, j <> i ->
                 num_steps_in_config_space st' !! j =
                 num_steps_in_config_space st !! j)
  | Err e =>
      e = runtime_error "Used unsupported worm" /\
      current_config_space (world st) = Unsupported_space
  end.
Proof.
  intros Hth Hpos.
  unfold measure_every_step, enter, is_thermalized, call. run. proj.
  rewrite Hth, assert_true_bind. run. proj.
  destruct (current_config_space (world st)) eqn:Hcs; [..|done].
  all: run; rewrite ?draw_random_bind; run; proj.
  all: split; [done|]; apply bump_spec.
Qed.

Lemma measure_every_step_counts_witness :
  thermalized thermalized_walker = true /\
  (forall c, 0 <= get_config_space_position (Environment := toy_env true) c) /\
  match measure_every_step (Env := toy_env true) thermalized_walker with
  | Ok _ st' => num_steps_in_config_space st' = [1%float; 0%float]
  | Err _ => False
  end.
Proof.
  assert (H1 : thermalized thermalized_walker = true) by done.
  assert (H2 : forall c,
             0 <= get_config_space_position (Environment := toy_env true) c)
    by (by intros []).
  split; [exact H1|]. split; [exact H2|].
  pose proof (measure_every_step_counts (Env := toy_env true)
                thermalized_walker H1 H2) as H.
  destruct (measure_every_step (Env := toy_env true) thermalized_walker)
    as [[] st'|e] eqn:Hrun; [|by destruct H].
  vm_compute in Hrun. by injection Hrun as <-.
Defined.


(** X7. In a build that keeps assertions, [do_one_sweep] fails on its first
    assertion unless it is entered with the window at its right edge, and a
    sweep that returns hands the window back at its right edge. *)
Theorem right_edge_is_asserted {World} `{Env : Environment World}
  (st : Walker World) :
  NDEBUG = false ->
  match do_one_sweep st with
  | Ok _ st' => at_right_edge st = true /\ at_right_edge st' = true
  | Err e =>
      at_right_edge st = false -> e = assertion_failed right_edge_assertion
  end.
Proof.
  intros Hd. destruct (do_one_sweep st) as [[] st'|e] eqn:Hrun.
  - by apply do_one_sweep_checks_right_edge.
  - intros Hb. rewrite (do_one_sweep_asserts_right_edge st Hd Hb) in Hrun.
    by injection Hrun as <-.
Qed.

Lemma right_edge_is_asserted_witness :
  NDEBUG (Environment := toy_env false) = false /\
  exists st',
    do_one_sweep (Env := toy_env false) empty_order_walker = Ok tt st' /\
    at_right_edge st' = true.
Proof.
  assert (H1 : NDEBUG (Environment := toy_env false) = false) by done.
  split; [exact H1|].
  pose proof (right_edge_is_asserted (Env := toy_env false)
                empty_order_walker H1) as H.
  destruct (do_one_sweep (Env := toy_env false) empty_order_walker)
    as [[] st'|e] eqn:Hrun; [|vm_compute in Hrun; discriminate].
  exists st'. split; [done|]. apply H.
Defined.



(** ** [global_updates], event by event *)

Section GlobalShape.

Context {World : Type} `{Env : Environment World}.
Implicit Types st : Walker World.

Lemma core_fields st st' :
  core st' = core st ->
  N_win_standard st' = N_win_standard st /\ wiring st' = wiring st /\
  BETA st' = BETA st.
Proof. unfold core. intros H. by simplify_eq. Qed.

Lemma swap_step_shape itry st :
  exists st' acc,
    swap_step itry st = Ok tt st' /\ core st' = core st /\
    trace st' =
    trace st ++
    swap_events (N_win_standard st) (execute_ordering (world st) itry, acc).
Proof.
  unfold swap_step. run. rewrite call_bind. run. proj.
  lazymatch goal with
  | |- context [if ?b then _ else _] => destruct b eqn:Hacc
  end.
  all: rewrite call_bind.
  all: lazymatch goal with
       | |- context [sanity_check ?s] =>
           destruct (sanity_check_runs s) as (s1 & Hr1 & Hc1 & _ & Ht1 & _)
       end.
  all: cbn [trace record set_world] in Ht1.
  - exists s1, true. split; [exact Hr1|]. split; [exact Hc1|].
    rewrite Ht1. cbn [swap_events fst snd]. by rewrite <- !(assoc_L (++)).
  - exists s1, false. split; [exact Hr1|]. split; [exact Hc1|].
    rewrite Ht1. cbn [swap_events fst snd]. by rewrite <- !(assoc_L (++)).
Qed.

(** The loop over the flavor exchanges. *)
Lemma swap_loop_shape (l : list Z) st :
  exists st' swaps,
    for_each l swap_step st = Ok tt st' /\
    core st' = core st /\ length swaps = length l /\
    trace st' = trace st ++ concat (map (swap_events (N_win_standard st)) swaps).
Proof.
  revert st. induction l as [|itry l IH]; intros st.
  - exists st, []. by rewrite app_nil_r.
  - cbn [for_each].
    destruct (swap_step_shape itry st) as (s1 & acc & Hr1 & Hc1 & Ht1).
    rewrite (bind_run_Ok _ _ _ _ _ Hr1).
    destruct (core_fields _ _ Hc1) as (Hn1 & _).
    destruct (IH s1) as (st' & swaps & Hr & Hc & Hlen & Ht).
    rewrite Hn1 in Ht.
    exists st', ((execute_ordering (world st) itry, acc) :: swaps).
    split; [exact Hr|]. split; [congruence|]. split; [cbn; lia|].
    rewrite Ht, Ht1. cbn [map concat]. by rewrite <- !(assoc_L (++)).
Qed.

(** [global_update_moves], event by event. *)
Lemma global_update_moves_shape st :
  match global_update_moves st with
  | Ok _ st' =>
      core st' = core st /\
      exists t swaps r acc,
        Forall worm_sector t /\
        length swaps = Z.to_nat (swap_vector_size (wiring st)) /\
        trace st' =
        trace st ++ global_move_events st t swaps (r * BETA st)%float acc
  | Err e => worm_assertion e
  end.
Proof.
  unfold global_update_moves.
  pose proof (transition_spec core core_frame core_frame_weights st) as Htr.
  destruct (transition_between_config_spaces st) as [[] s1|e] eqn:Hr1.
  2:{ by rewrite (bind_run_Err _ _ _ _ Hr1). }
  rewrite (bind_run_Ok _ _ _ _ _ Hr1). destruct Htr as (Hc1 & t & Ht1 & Hall).
  destruct (core_fields _ _ Hc1) as (Hn1 & Hw1 & Hb1).
  rewrite call_bind. run. proj. rewrite Hw1.
  unfold global_move_events.
  destruct (0 <? swap_vector_size (wiring st)) eqn:Hpos; cbn [when].
  - rewrite bind_assoc, call_bind. unfold for_loop.
    lazymatch goal with
    | |- context [(for_each ?l ?b ≫= _) ?s] =>
        change b with swap_step;
        destruct (swap_loop_shape l s) as (s2 & swaps & Hr2 & Hc2 & Hlen & Ht2)
    end.
    rewrite (bind_run_Ok _ _ _ _ _ Hr2).
    change (core s2 = core s1) in Hc2. rewrite Hc1 in Hc2.
    destruct (core_fields _ _ Hc2) as (Hn2 & Hw2 & Hb2).
    rewrite length_seqZ, Z.sub_0_r in Hlen.
    cbn [trace record set_world N_win_standard] in Ht2. rewrite Hn1 in Ht2.
    rewrite draw_random_bind. run. proj. rewrite call_bind. run. proj.
    rewrite Hn2, Hb2.
    lazymatch goal with
    | |- context [if ?b then _ else _] => destruct b eqn:Hacc
    end.
    + unfold call. run. split; [by proj|]. 
      exists t, swaps, (random (world s2)).1, true.
      split; [done|]. split; [done|]. proj. rewrite Ht2, Ht1.
      unfold shift_events. by rewrite <- !(assoc_L (++)).
    + rewrite call_bind. unfold output.
      destruct translationally_invariant eqn:Hti; cbn [when]; run;
        (split; [by proj|]);
        exists t, swaps, (random (world s2)).1, false;
        (split; [done|]); (split; [done|]); proj; rewrite Ht2, Ht1;
        unfold shift_events; rewrite Hti; by rewrite <- !(assoc_L (++)).
  - rewrite ret_bind. assert (Hz : Z.to_nat (swap_vector_size (wiring st)) = 0%nat).
    { apply Z.ltb_ge in Hpos. lia. }
    rewrite draw_random_bind. run. proj. rewrite call_bind. run. proj.
    rewrite Hn1, Hb1.
    lazymatch goal with
    | |- context [if ?b then _ else _] => destruct b eqn:Hacc
    end.
    + unfold call. run. split; [by proj|].
      eexists t, [], _, true.
      split; [done|]. split; [by rewrite Hz|]. proj. rewrite Ht1.
      unfold shift_events; cbn [app]. rewrite <- !(assoc_L (++)). done.
    + rewrite call_bind. unfold output.
      destruct translationally_invariant eqn:Hti; cbn [when]; run;
        (split; [by proj|]);
        eexists t, [], _, false;
        (split; [done|]); (split; [by rewrite Hz|]); proj; rewrite Ht1;
        unfold shift_events; cbn [app]; rewrite Hti; by rewrite <- !(assoc_L (++)).
Qed.

End GlobalShape.

(** X9. [global_updates], event by event: the window is resized to one
    segment, the worm transitions run, the determinant is recomputed, as many
    flavor exchanges are tried as [swap_vector] has entries (after one
    shuffle; each attempt is counted as accepted or rejected on the index it
    tried), one global shift is tried and counted, with a warning iff it is
    rejected for a translationally invariant model, and the window is resized
    to the size found on entry. Every global move is handed the window
    argument [max(N_win_standard, 10)]. *)
Theorem global_updates_shape {World} `{Env : Environment World}
  (st : Walker World) :
  match global_updates st with
  | Ok _ st' =>
      exists t swaps r acc,
        Forall worm_sector t /\
        length swaps = Z.to_nat (swap_vector_size (wiring st)) /\
        trace st' =
        trace st ++
        [Enter R_global_updates;
         Call (sliding_window_set_window_size 1 default_position_right_edge
                 default_direction_move)] ++
        global_move_events st t swaps (r * BETA st)%float acc ++
        sanity_events ++
        [Call (sliding_window_set_window_size
                 (get_n_window (sliding_window st)) 0 ITIME_LEFT)] ++
        sanity_events
  | Err e => worm_assertion e
  end.
Proof.
  unfold global_updates, enter. rewrite modify_bind. run. rewrite call_bind. proj.
  lazymatch goal with
  | |- match (_ ≫= _) ?s with _ => _ end => set (s1 := s)
  end.
  assert (Hc1 : core s1 = core st) by done.
  assert (Ht1 : trace s1 =
                trace st ++
                [Enter R_global_updates;
                 Call (sliding_window_set_window_size 1
                         default_position_right_edge default_direction_move)]).
  { subst s1. proj. by rewrite <- (assoc_L (++)). }
  clearbody s1.
  pose proof (global_update_moves_shape s1) as Hm.
  destruct (global_update_moves s1) as [[] s2|e] eqn:Hrun.
  2:{ by rewrite (bind_run_Err _ _ _ _ Hrun). }
  rewrite (bind_run_Ok _ _ _ _ _ Hrun).
  destruct Hm as (Hc2 & t & swaps & r & acc & Hall & Hlen & Ht2).
  destruct (core_fields _ _ Hc1) as (Hn1 & Hw1 & Hb1).
  unfold global_move_events in *. rewrite Hn1, Hw1, Hb1 in *.
  destruct (sanity_check_runs s2) as (s3 & Hs3 & Hc3 & _ & Ht3 & _).
  rewrite (bind_run_Ok _ _ _ _ _ Hs3). rewrite call_bind.
  lazymatch goal with
  | |- match sanity_check ?s with _ => _ end =>
      destruct (sanity_check_runs s) as (s5 & -> & _ & _ & Ht5 & _)
  end.
  exists t, swaps, r, acc. split; [done|]. split; [done|].
  rewrite Ht5. proj. rewrite Ht3, Ht2, Ht1. by rewrite <- !(assoc_L (++)).
Qed.

(** ** [update_MC_parameters], event by event *)

Section Tuning.

Context {World : Type} `{Env : Environment World}.
Implicit Types st : Walker World.

Lemma push_min_pert_order_hist_spec (x : float) (h : list float) :
  (length h <= 20)%nat ->
  push_min_pert_order_hist x h = drop (length h + 1 - 20) (h ++ [x]) /\
  length (push_min_pert_order_hist x h) = Nat.min (length h + 1) 20 /\
  last (push_min_pert_order_hist x h) = Some x.
Proof.
  intros Hlen. unfold push_min_pert_order_hist. cbv zeta.
  rewrite length_app. cbn [length].
  destruct (20 <? length h + 1)%nat eqn:Hlt.
  - apply Nat.ltb_lt in Hlt. assert (Hh : length h = 20%nat) by lia.
    replace (length h + 1 - 20)%nat with 1%nat by lia.
    destruct h as [|y h]; [done|]. cbn [app tail drop].
    split; [by destruct (h ++ [x])|]. rewrite length_app. cbn [length] in *.
    split; [lia|]. destruct h as [|z h]; [done|]. apply (last_snoc x (z :: h)).
  - apply Nat.ltb_ge in Hlt.
    replace (length h + 1 - 20)%nat with 0%nat by lia. cbn [drop].
    rewrite length_app. cbn [length]. split; [done|]. split; [lia|].
    apply last_snoc.
Qed.

(** Everything [update_MC_parameters] does to a walker that is not
    thermalized. *)
Lemma update_MC_parameters_exact st :
  thermalized st = false ->
  exists st',
    update_MC_parameters st = Ok tt st' /\
    tuning_frame st' = tuning_frame st /\
    min_pert_order_hist st' =
    push_min_pert_order_hist (Double.of_Z (pert_order (world st)))
      (min_pert_order_hist st) /\
    N_win_standard st' = tuned_window_size st /\
    sliding_window st' = sliding_window st /\
    trace st' = trace st ++ Enter R_update_MC_parameters :: tuning_events st.
Proof.
  intros Hth. unfold update_MC_parameters, enter, is_thermalized, call, output.
  run. proj. rewrite Hth. cbn [negb]. rewrite assert_true_bind. run. proj.
  rewrite Hth. run. proj. unfold tuning_events, tuned_window_size.
  split_when; cbn beta; run; proj.
  all: split_when.
  all: eexists; split; [reflexivity|]; proj.
  all: repeat (split; [reflexivity|]).
  all: by rewrite <- ?(assoc_L (++)).
Qed.

End Tuning.

(** X10. The static history of [update_MC_parameters] holds the most recent
    perturbation orders, never more than 20 of them. *)
Theorem min_pert_order_hist_keeps_last_20 {World} `{Env : Environment World}
  (st : Walker World) :
  thermalized st = false ->
  (length (min_pert_order_hist st) <= 20)%nat ->
  exists st',
    update_MC_parameters st = Ok tt st' /\
    min_pert_order_hist st' =
    drop (length (min_pert_order_hist st) + 1 - 20)
      (min_pert_order_hist st ++ [Double.of_Z (pert_order (world st))]) /\
    length (min_pert_order_hist st') =
    Nat.min (length (min_pert_order_hist st) + 1) 20 /\
    last (min_pert_order_hist st') = Some (Double.of_Z (pert_order (world st))).
Proof.
  intros Hth Hlen.
  destruct (update_MC_parameters_exact st Hth) as (st' & Hrun & _ & Hh & _).
  exists st'. split; [done|]. rewrite Hh.
  by apply push_min_pert_order_hist_spec.
Qed.

Lemma min_pert_order_hist_keeps_last_20_witness :
  thermalized empty_order_walker = false /\
  (length (min_pert_order_hist empty_order_walker) <= 20)%nat /\
  exists st',
    update_MC_parameters (Env := toy_env true) empty_order_walker = Ok tt st' /\
    min_pert_order_hist st' = [0%float].
Proof.
  assert (H1 : thermalized empty_order_walker = false) by done.
  assert (H2 : (length (min_pert_order_hist empty_order_walker) <= 20)%nat)
    by (simpl; lia).
  split; [exact H1|]. split; [exact H2|].
  destruct (min_pert_order_hist_keeps_last_20 (Env := toy_env true)
              empty_order_walker H1 H2) as (st' & Hrun & Hh & _).
  exists st'. split; [exact Hrun|]. rewrite Hh. by vm_compute.
Defined.

(** X11. [update_MC_parameters] prints the new window size only on rank 0 of a
    verbose run and only when the sweep counter is a multiple of 10, asks the
    shift updater once to update its parameters, and does not touch the
    sliding window. *)
Theorem update_MC_parameters_events {World} `{Env : Environment World}
  (st : Walker World) :
  thermalized st = false ->
  exists st',
    update_MC_parameters st = Ok tt st' /\
    sliding_window st' = sliding_window st /\
    sweeps st' = sweeps st /\
    trace st' = trace st ++ Enter R_update_MC_parameters :: tuning_events st.
Proof.
  intros Hth.
  destruct (update_MC_parameters_exact st Hth)
    as (st' & Hrun & Hf & _ & _ & Hsw & Ht).
  exists st'. split; [done|]. split; [done|]. split; [|done].
  unfold tuning_frame in Hf. by simplify_eq.
Qed.

Lemma update_MC_parameters_events_witness :
  thermalized empty_order_walker = false /\
  exists st',
    update_MC_parameters (Env := toy_env true) empty_order_walker = Ok tt st' /\
    trace st' = [Enter R_update_MC_parameters;
                 Call single_op_shift_updater_update_parameters].
Proof.
  assert (H1 : thermalized empty_order_walker = false) by done.
  split; [exact H1|].
  destruct (update_MC_parameters_events (Env := toy_env true)
              empty_order_walker H1) as (st' & Hrun & _ & _ & Ht).
  exists st'. split; [exact Hrun|]. rewrite Ht. by vm_compute.
Defined.

(** ** [prepare_for_measurement], event by event *)

Section Preparing.

Context {World : Type} `{Env : Environment World}.
Implicit Types st : Walker World.





Lemma members_record e st : members (record e st) = members st.
Proof. reflexivity. Qed.

Lemma members_set_world w sw st : members (set_world w sw st) = members st.
Proof. reflexivity. Qed.




End Preparing.


(** ** [adjust_worm_space_weight] *)

Section WeightLoop.

Context {World : Type} `{Env : Environment World}.
Implicit Types st : Walker World.

Lemma int_succ (w n : Z) :
  0 <= w < n -> n <= Int.max_int -> Int.add w 1 = w + 1.
Proof.
  intros Hw Hn. unfold Int.add. apply wrap_in_range.
  unfold Int.in_range, Int.min_int, Int.max_int in *. lia.
Qed.

(** One pass of the loop over the worm types. *)
Lemma apply_weight_ratio_run wt w st :
  0 <= w < Z.of_nat (length wt) -> Z.of_nat (length wt) <= Int.max_int ->
  exists st',
    apply_weight_ratio wt w st = Ok tt st' /\
    core st' = core st /\ world st' = world st /\ trace st' = trace st /\
    sliding_window st' = sliding_window st /\
    num_steps_in_config_space st' = num_steps_in_config_space st /\
    config_space_extra_weight st' =
    <[Z.to_nat (w + 1) := weight_ratio (world st) (w + 1) 0]>
      (config_space_extra_weight st) /\
    worm_space_extra_weight_map st' =
    match wt !! Z.to_nat w with
    | Some s =>
        <[s := weight_ratio (world st) (w + 1) 0]> (worm_space_extra_weight_map st)
    | None => worm_space_extra_weight_map st
    end.
Proof.
  intros Hw Hlen. unfold apply_weight_ratio. run.
  rewrite (int_succ w _ Hw Hlen).
  destruct (wt !! Z.to_nat w); simpl; eexists; (split; [reflexivity|]);
    by proj.
Qed.

Lemma apply_weight_ratios_run wt (l : list Z) st :
  (forall w, w ∈ l -> 0 <= w < Z.of_nat (length wt)) ->
  Z.of_nat (length wt) <= Int.max_int ->
  exists st',
    for_each l (apply_weight_ratio wt) st = Ok tt st' /\
    core st' = core st /\ world st' = world st /\ trace st' = trace st /\
    sliding_window st' = sliding_window st /\
    num_steps_in_config_space st' = num_steps_in_config_space st /\
    length (config_space_extra_weight st') =
    length (config_space_extra_weight st) /\
    (forall w, w ∈ l ->
       (Z.to_nat (w + 1) < length (config_space_extra_weight st))%nat ->
       config_space_extra_weight st' !! Z.to_nat (w + 1) =
       Some (weight_ratio (world st) (w + 1) 0)) /\
    (forall j, (forall w, w ∈ l -> Z.to_nat (w + 1) <> j) ->
       config_space_extra_weight st' !! j = config_space_extra_weight st !! j) /\
    (NoDup wt ->
     forall w s, w ∈ l -> wt !! Z.to_nat w = Some s ->
       worm_space_extra_weight_map st' !! s =
       Some (weight_ratio (world st) (w + 1) 0)) /\
    (forall s, (forall w, w ∈ l -> wt !! Z.to_nat w <> Some s) ->
       worm_space_extra_weight_map st' !! s =
       worm_space_extra_weight_map st !! s).
Proof.
  intros Hin Hlen. revert st. induction l as [|w l IH]; intros st.
  - exists st. split; [done|]. repeat (split; [done|]).
    split; [intros w Hw; by apply elem_of_nil in Hw|].
    split; [done|]. split; [|done].
    intros _ w s Hw. by apply elem_of_nil in Hw.
  - cbn [for_each].
    destruct (apply_weight_ratio_run wt w st)
      as (s1 & Hr1 & Hc1 & Hw1 & Ht1 & Hs1 & Hn1 & Hv1 & Hm1);
      [apply Hin; by left|done|].
    rewrite (bind_run_Ok _ _ _ _ _ Hr1).
    destruct (IH (fun w' H => Hin w' (proj2 (elem_of_cons l w' w) (or_intror H))) s1)
      as (st' & Hr & Hc & Hw' & Ht & Hs & Hn & Hlen' & Hset & Hkeep & Hmap & Hmkeep).
    exists st'. split; [done|].
    split; [congruence|]. split; [congruence|]. split; [congruence|].
    split; [congruence|]. split; [congruence|].
    split; [by rewrite Hlen', Hv1, length_insert|].
    rewrite Hw1 in *.
    split; [|split; [|split]].
    + intros w' Hw'in Hlt. destruct (decide (w' ∈ l)) as [Hl|Hl].
      * apply Hset; [done|]. by rewrite Hv1, length_insert.
      * apply elem_of_cons in Hw'in as [->|?]; [|done].
        rewrite Hkeep.
        -- rewrite Hv1. by apply list_lookup_insert_eq.
        -- intros w'' Hw'' Heq. apply Hl.
           assert (0 <= w'' /\ 0 <= w) as [? ?].
           { split; [apply (Hin w''); by right|apply (Hin w); by left]. }
           replace w with w'' by lia. done.
    + intros j Hj. rewrite Hkeep.
      * rewrite Hv1. apply list_lookup_insert_ne. apply Hj. by left.
      * intros w' Hw'in. apply Hj. by right.
    + intros Hnd w' s Hw'in Hs'. destruct (decide (w' ∈ l)) as [Hl|Hl].
      * by apply Hmap.
      * apply elem_of_cons in Hw'in as [->|?]; [|done].
        rewrite Hmkeep.
        -- rewrite Hm1, Hs'. by apply lookup_insert_eq.
        -- intros w'' Hw'' Heq. apply Hl.
           assert (Z.to_nat w'' = Z.to_nat w) as Hsame.
           { eapply NoDup_lookup; [exact Hnd|exact Heq|exact Hs']. }
           assert (0 <= w'' /\ 0 <= w) as [? ?].
           { split; [apply (Hin w''); by right|apply (Hin w); by left]. }
           replace w with w'' by lia. done.
    + intros s Hs'. rewrite Hmkeep.
      * rewrite Hm1. destruct (wt !! Z.to_nat w) as [s'|] eqn:Hlk; [|done].
        apply lookup_insert_ne. intros ->. eapply Hs'; [by left|done].
      * intros w' Hw'in. apply Hs'. by right.
Qed.

End WeightLoop.

(** X13. While the walker learns and a flat-histogram object exists,
    [adjust_worm_space_weight] records the current space once with the object,
    reduces the modification factor iff the histogram is then flat enough, and
    touches neither the window nor the step counters; in every other case it
    does nothing at all. *)
Theorem adjust_worm_space_weight_events {World} `{Env : Environment World}
  (st : Walker World) :
  Z.of_nat (length (worm_types (wiring st))) <= Int.max_int ->
  exists st',
    adjust_worm_space_weight st = Ok tt st' /\
    if p_flat_histogram_config_space (wiring st) && negb (thermalized st)
    then
      core st' = core st /\
      sliding_window st' = sliding_window st /\
      num_steps_in_config_space st' = num_steps_in_config_space st /\
      trace st' = trace st ++ reweighting_events st
    else st' = st.
Proof.
  intros Hlen.
  destruct (p_flat_histogram_config_space (wiring st)) eqn:Hp;
    [destruct (thermalized st) eqn:Hth|]; cbn [negb andb].
  2:{ unfold adjust_worm_space_weight, is_thermalized, call,
        apply_worm_space_weights, for_loop. run.
      rewrite Hp, Hth. cbn [negb orb]. run. proj.
      unfold reweighting_events, world_after. cbv zeta.
      cbn [after_call receives_sliding_window fst snd].
      split_when; cbv beta; run; proj.
      all: lazymatch goal with
           | |- context [for_each ?l (apply_weight_ratio ?wt) ?s] =>
               destruct (apply_weight_ratios_run wt l s)
                 as (st' & Hr & Hc & _ & Ht & Hs & Hn & _);
               [intros w Hw; apply elem_of_seqZ in Hw; lia|done|];
               exists st'; split; [exact Hr|]
           end.
      all: rewrite Hc, Ht, Hs, Hn; proj; cbn [after_call receives_sliding_window fst snd].
      all: by rewrite <- ?(assoc_L (++)). }
  all: exists st; split; [|done]; apply adjust_worm_space_weight_idle; auto.
Qed.

Lemma adjust_worm_space_weight_events_witness :
  Z.of_nat (length (worm_types (wiring empty_order_walker))) <= Int.max_int /\
  exists st',
    adjust_worm_space_weight (Env := toy_env true) empty_order_walker =
    Ok tt st' /\
    trace st' = [Call (flat_histogram_measure 0)].
Proof.
  assert (H1 : Z.of_nat (length (worm_types (wiring empty_order_walker))) <=
               Int.max_int) by (by vm_compute).
  split; [exact H1|].
  destruct (adjust_worm_space_weight_events (Env := toy_env true)
              empty_order_walker H1) as (st' & Hrun & H).
  exists st'. split; [exact Hrun|].
  change (p_flat_histogram_config_space (wiring empty_order_walker) &&
          negb (thermalized empty_order_walker)) with true in H.
  destruct H as (_ & _ & _ & ->). by vm_compute.
Defined.

(** X14. After a run of [adjust_worm_space_weight] that is not idle, the
    weight vector has its old length, entry 0 is 1.0, entry [w + 1] holds the
    ratio the flat-histogram object reports for worm space [w + 1] against
    space 0, the map holds the same ratio under [worm_types[w]], and map
    entries of other spaces are as before. *)
Theorem adjust_worm_space_weight_weights {World} `{Env : Environment World}
  (st : Walker World) :
  p_flat_histogram_config_space (wiring st) = true ->
  thermalized st = false ->
  Z.of_nat (length (worm_types (wiring st))) <= Int.max_int ->
  NoDup (worm_types (wiring st)) ->
  exists st',
    adjust_worm_space_weight st = Ok tt st' /\
    length (config_space_extra_weight st') =
    length (config_space_extra_weight st) /\
    ((0 < length (config_space_extra_weight st))%nat ->
     config_space_extra_weight st' !! 0%nat = Some 1%float) /\
    (forall (w : nat) s,
       worm_types (wiring st) !! w = Some s ->
       worm_space_extra_weight_map st' !! s =
       Some (weight_ratio (world st') (Z.of_nat w + 1) 0) /\
       ((S w < length (config_space_extra_weight st))%nat ->
        config_space_extra_weight st' !! S w =
        Some (weight_ratio (world st') (Z.of_nat w + 1) 0))) /\
    (forall s, s ∉ worm_types (wiring st) ->
       worm_space_extra_weight_map st' !! s =
       worm_space_extra_weight_map st !! s) /\
    (forall j, (length (worm_types (wiring st)) < j)%nat ->
       config_space_extra_weight st' !! j = config_space_extra_weight st !! j).
Proof.
  intros Hp Hth Hlen Hnd.
  unfold adjust_worm_space_weight, is_thermalized, call,
    apply_worm_space_weights, for_loop. run.
  rewrite Hp, Hth. cbn [negb orb]. run. proj.
  split_when; cbv beta; run; proj.
  all: lazymatch goal with
       | |- context [for_each ?l (apply_weight_ratio ?wt) ?s] =>
           destruct (apply_weight_ratios_run wt l s)
             as (st' & Hr & _ & Hw & _ & _ & _ & Hl & Hset & Hkeep & Hmap & Hmkeep);
           [intros w Hw; apply elem_of_seqZ in Hw; lia|done|];
           exists st'; split; [exact Hr|]
       end.
  all: proj_all; rewrite Hw in *; rewrite ?length_insert in *.
  all: split; [exact Hl|].
  all: split;
    [intros Hpos; rewrite Hkeep;
       [by apply list_lookup_insert_eq|intros w Hin; apply elem_of_seqZ in Hin; lia]|].
  all: split; [|split].
  all: try (intros w s Hs; pose proof (lookup_lt_Some _ _ _ Hs) as Hlt;
            assert (Hin : Z.of_nat w ∈ seqZ 0 (Z.of_nat (length (worm_types (wiring st))) - 0))
              by (apply elem_of_seqZ; lia);
            split;
            [apply (Hmap Hnd (Z.of_nat w) s Hin); by rewrite Nat2Z.id
            |intros Hlt'; specialize (Hset (Z.of_nat w) Hin);
             replace (Z.to_nat (Z.of_nat w + 1)) with (S w) in Hset by lia;
             by apply Hset]).
  all: try (intros s Hs; rewrite Hmkeep; [done|];
            intros w Hin Heq; apply Hs; by eapply list_elem_of_lookup_2).
  all: intros j Hj; rewrite Hkeep;
    [apply list_lookup_insert_ne; lia
    |intros w Hin; apply elem_of_seqZ in Hin; lia].
Qed.

Lemma adjust_worm_space_weight_weights_witness :
  p_flat_histogram_config_space (wiring empty_order_walker) = true /\
  thermalized empty_order_walker = false /\
  Z.of_nat (length (worm_types (wiring empty_order_walker))) <= Int.max_int /\
  NoDup (worm_types (wiring empty_order_walker)) /\
  exists st',
    adjust_worm_space_weight (Env := toy_env true) empty_order_walker =
    Ok tt st' /\
    worm_space_extra_weight_map st' !! G1 = Some 2%float /\
    config_space_extra_weight st' = [1%float; 2%float].
Proof.
  assert (H1 : p_flat_histogram_config_space (wiring empty_order_walker) = true)
    by done.
  assert (H2 : thermalized empty_order_walker = false) by done.
  assert (H3 : Z.of_nat (length (worm_types (wiring empty_order_walker))) <=
               Int.max_int) by (by vm_compute).
  assert (H4 : NoDup (worm_types (wiring empty_order_walker))).
  { apply NoDup_singleton. }
  do 4 (split; [done|]).
  destruct (adjust_worm_space_weight_weights (Env := toy_env true)
              empty_order_walker H1 H2 H3 H4)
    as (st' & Hrun & _ & _ & Hw & _).
  exists st'. split; [exact Hrun|].
  split; [by destruct (Hw 0%nat G1 eq_refl) as [-> _]|].
  vm_compute in Hrun. by injection Hrun as <-.
Defined.

(** ** The passes of [transition_between_config_spaces] *)

Section Transition.

Context {World : Type} `{Env : Environment World}.
Implicit Types st : Walker World.




End Transition.



(** ** The accumulators *)

Section MeasureFacts.

Context {World : Type} `{Acc : Accumulating World}.
Implicit Types st : Walker World.

Lemma on_walker_gets {A B} (f : Walker World -> A)
  (k : A -> M (Measuring World) B) s :
  (on_walker (gets f) ≫= k) s = k (f s.1) s.
Proof. by destruct s. Qed.

Lemma on_walker_modify {B} (g : Walker World -> Walker World)
  (k : unit -> M (Measuring World) B) s :
  (on_walker (modify g) ≫= k) s = k tt (g s.1, s.2).
Proof. reflexivity. Qed.

Lemma push_bind {B} name v (k : unit -> M (Measuring World) B) s :
  (push name v ≫= k) s = k tt (s.1, s.2 ++ [(name, v)]).
Proof. reflexivity. Qed.

Lemma pushes_run {A} (name : A -> string) (value : A -> Observation)
  (l : list A) (s : Measuring World) :
  for_each l (fun x => push (name x) (value x)) s =
  Ok tt (s.1, s.2 ++ map (fun x => (name x, value x)) l).
Proof.
  revert s. induction l as [|x l IH]; intros [st log]; cbn [for_each map].
  - by rewrite app_nil_r.
  - rewrite push_bind, IH. cbn [fst snd]. by rewrite <- (assoc_L (++)).
Qed.

Lemma pushes_bind {A B} (name : A -> string) (value : A -> Observation)
  (l : list A) (k : unit -> M (Measuring World) B) s :
  (for_each l (fun x => push (name x) (value x)) ≫= k) s =
  k tt (s.1, s.2 ++ map (fun x => (name x, value x)) l).
Proof. unfold mbind, M_bind. by rewrite pushes_run. Qed.

Lemma map_seqZ_imap {A B} (l : list A) (f : Z -> B) (g : nat -> A -> B) :
  (forall (w : nat) c, l !! w = Some c -> f (Z.of_nat w) = g w c) ->
  map f (seqZ 0 (Z.of_nat (length l) - 0)) = imap g l.
Proof.
  intros H. apply list_eq. intros i.
  rewrite list_lookup_fmap, list_lookup_imap.
  destruct (l !! i) as [c|] eqn:Hi.
  - rewrite lookup_seqZ_lt by (apply lookup_lt_Some in Hi; lia).
    cbn. f_equal. rewrite Z.add_0_l. by apply H.
  - rewrite lookup_seqZ_ge by (apply lookup_ge_None in Hi; lia). done.
Qed.

Lemma entry_zip_div (ns cw : list float) (i : Z) :
  (Z.to_nat i < length ns)%nat -> (Z.to_nat i < length cw)%nat ->
  entry (zip_with PrimFloat.div ns cw) i = (entry ns i / entry cw i)%float.
Proof.
  intros H1 H2. unfold entry. rewrite lookup_zip_with.
  destruct (lookup_lt_is_Some_2 _ _ H1) as [x ->].
  destruct (lookup_lt_is_Some_2 _ _ H2) as [y ->]. done.
Qed.

End MeasureFacts.

(** X15. The first block of [measure], for step counters and weights with one
    entry per configuration space: it records the counters, then the counters
    divided by the weights of their spaces as the volumes, and leaves every
    counter at 0.0. *)
Theorem measure_config_space_volumes_spec {World} `{Acc : Accumulating World}
  (st : Walker World)
  (log : list (string * Observation)) :
  let wt := worm_types (wiring st) in
  let ns := num_steps_in_config_space st in
  let cw := config_space_extra_weight st in
  length ns = S (length wt) -> length cw = S (length wt) ->
  Z.of_nat (length wt) < Int.max_int ->
  measure_config_space_volumes (st, log) =
  Ok tt (set_num_steps_in_config_space (replicate (S (length wt)) 0%float) st,
         log ++ num_steps_samples wt ns ++ volume_samples wt ns cw).
Proof.
  intros wt ns cw Hns Hcw Hlen. unfold measure_config_space_volumes, for_loop.
  rewrite on_walker_gets, push_bind, on_walker_gets, pushes_bind.
  rewrite on_walker_modify, on_walker_gets, push_bind, pushes_bind.
  cbn [fst snd]. proj. fold wt ns cw.
  unfold on_walker, modify. cbn [fst snd]. proj.
  rewrite length_zip_with, Hns, Hcw, Nat.min_id.
  f_equal. f_equal. rewrite <- !(assoc_L (++)). f_equal.
  unfold num_steps_samples, volume_samples. cbn [app]. f_equal. f_equal.
  - apply map_seqZ_imap. intros w c Hw. unfold worm_space_name.
    rewrite Nat2Z.id, Hw. cbn. do 2 f_equal. unfold Int.add.
    rewrite wrap_in_range; [done|].
    apply lookup_lt_Some in Hw. fold wt in Hw.
    unfold Int.in_range, Int.min_int, Int.max_int in *. lia.
  - f_equal.
    + rewrite entry_zip_div; [done|rewrite Hns; cbn; lia|rewrite Hcw; cbn; lia].
    + apply map_seqZ_imap. intros w c Hw. unfold worm_space_name.
      rewrite Nat2Z.id, Hw. cbn. apply lookup_lt_Some in Hw. fold wt in Hw.
      do 2 f_equal. unfold Int.add.
      rewrite wrap_in_range
        by (unfold Int.in_range, Int.min_int, Int.max_int in *; lia).
      apply entry_zip_div; [rewrite Hns|rewrite Hcw]; lia.
Qed.

Lemma measure_config_space_volumes_spec_witness :
  length (num_steps_in_config_space thermalized_walker) =
  S (length (worm_types (wiring thermalized_walker))) /\
  length (config_space_extra_weight thermalized_walker) =
  S (length (worm_types (wiring thermalized_walker))) /\
  Z.of_nat (length (worm_types (wiring thermalized_walker))) < Int.max_int /\
  measure_config_space_volumes (Acc := toy_accumulating)
    (thermalized_walker, []) =
  Ok tt (set_num_steps_in_config_space [0%float; 0%float] thermalized_walker,
         [("Z_function_space_num_steps", scalar 0);
          ("worm_space_num_steps_G1", scalar 0);
          ("Z_function_space_volume", scalar 0);
          ("worm_space_volume_G1", scalar 0)]).
Proof.
  assert (H1 : length (num_steps_in_config_space thermalized_walker) =
               S (length (worm_types (wiring thermalized_walker)))) by done.
  assert (H2 : length (config_space_extra_weight thermalized_walker) =
               S (length (worm_types (wiring thermalized_walker)))) by done.
  assert (H3 : Z.of_nat (length (worm_types (wiring thermalized_walker)))
               < Int.max_int) by (by vm_compute).
  do 3 (split; [done|]).
  rewrite (measure_config_space_volumes_spec (Acc := toy_accumulating) thermalized_walker [] H1 H2 H3).
  by vm_compute.
Defined.

Lemma order_creation_meas_spec (F N order flavor : Z) :
  0 <= flavor < F -> 0 <= order -> 0 <= N -> F * N <= Int.max_int ->
  length (order_creation_meas F N order flavor) = Z.to_nat (F * N) /\
  forall j, (j < Z.to_nat (F * N))%nat ->
    order_creation_meas F N order flavor !! j =
    Some (if decide (order < N /\ j = Z.to_nat (flavor * N + order))
          then 1%float else 0%float).
Proof.
  intros Hf Ho HN Hmax. unfold order_creation_meas, Int.mul, Int.add. cbv zeta.
  assert (HFN : 0 <= F * N) by nia.
  rewrite (wrap_in_range (F * N))
    by (unfold Int.in_range, Int.min_int, Int.max_int in *; lia).
  destruct (order <? N) eqn:Hlt.
  - apply Z.ltb_lt in Hlt.
    assert (Hidx : 0 <= flavor * N + order < F * N) by nia.
    rewrite (wrap_in_range (flavor * N))
      by (unfold Int.in_range, Int.min_int, Int.max_int in *; nia).
    rewrite (wrap_in_range (flavor * N + order))
      by (unfold Int.in_range, Int.min_int, Int.max_int in *; lia).
    split; [by rewrite length_insert, length_replicate|].
    intros j Hj. destruct (decide (_ /\ _)) as [[_ ->]|Hn].
    + apply list_lookup_insert_eq. rewrite length_replicate. lia.
    + rewrite list_lookup_insert_ne by (intros <-; apply Hn; by split).
      by apply lookup_replicate_2.
  - apply Z.ltb_ge in Hlt. split; [by rewrite length_replicate|].
    intros j Hj. rewrite decide_False by lia. by apply lookup_replicate_2.
Qed.

(** X16. The first block of [measure_Z_function_space]: one sample is pushed
    to ["order"] per flavor, in the order of the flavors, then the orders
    themselves to ["PerturbationOrderFlavors"], and the walker is left as it
    is. The sample of flavor [f] has [FLAVORS * N_order] entries, all 0.0
    except a single 1.0 at [f * N_order + order[f]]; an order that does not
    fit the histogram ([order[f] >= N_order]) gives a sample of zeros. *)
Theorem measure_perturbation_order_spec {World} `{Acc : Accumulating World}
  (st : Walker World)
  (log : list (string * Observation)) :
  let F := FLAVORS st in
  let N := MEASUREMENT_MAX_ORDER_HISTOGRAM in
  let orders := count_creation_operators_of F (world st) in
  0 <= N -> F * N <= Int.max_int ->
  length orders = Z.to_nat F -> Forall (fun o => 0 <= o) orders ->
  exists samples,
    measure_perturbation_order (st, log) =
    Ok tt (st, log ++ map (fun v => ("order", vector v)) samples ++
               [("PerturbationOrderFlavors", vector (map Double.of_Z orders))]) /\
    length samples = Z.to_nat F /\
    forall (f : nat) v o,
      samples !! f = Some v -> orders !! f = Some o ->
      length v = Z.to_nat (F * N) /\
      forall j, (j < Z.to_nat (F * N))%nat ->
        v !! j =
        Some (if decide (o < N /\ j = Z.to_nat (Z.of_nat f * N + o))
              then 1%float else 0%float).
Proof.
  intros F N orders HN Hmax Hlen Hpos.
  exists (map (fun flavor =>
                 order_creation_meas F N (int_entry orders flavor) flavor)
            (seqZ 0 (F - 0))).
  split; [|split].
  - unfold measure_perturbation_order, for_loop.
    rewrite !on_walker_gets. cbn [fst snd]. fold F orders N.
    rewrite pushes_bind. unfold push, modify. cbn [fst snd].
    rewrite <- (assoc_L (++)). do 3 f_equal. by rewrite map_map.
  - by rewrite length_map, length_seqZ, Z.sub_0_r.
  - intros f v o Hv Ho. rewrite list_lookup_fmap in Hv.
    pose proof (lookup_lt_Some _ _ _ Ho) as Hf. rewrite Hlen in Hf.
    rewrite lookup_seqZ_lt in Hv by lia. cbn in Hv. injection Hv as <-.
    rewrite Z.add_0_l. unfold int_entry. rewrite Nat2Z.id, Ho. cbn [default].
    apply order_creation_meas_spec; [lia| |done|done].
    rewrite Forall_forall in Hpos. apply Hpos.
    by eapply list_elem_of_lookup_2.
Qed.

Lemma measure_perturbation_order_spec_witness :
  0 <= MEASUREMENT_MAX_ORDER_HISTOGRAM (Accumulating := toy_accumulating) /\
  FLAVORS thermalized_walker *
  MEASUREMENT_MAX_ORDER_HISTOGRAM (Accumulating := toy_accumulating)
  <= Int.max_int /\
  exists samples,
    measure_perturbation_order (Acc := toy_accumulating)
      (thermalized_walker, []) =
    Ok tt (thermalized_walker,
           map (fun v => ("order", vector v)) samples ++
           [("PerturbationOrderFlavors", vector [0%float; 0%float])]) /\
    samples = [[1; 0; 0; 0; 0; 0]; [0; 0; 0; 1; 0; 0]]%float.
Proof.
  assert (H1 : 0 <= MEASUREMENT_MAX_ORDER_HISTOGRAM
                      (Accumulating := toy_accumulating)) by done.
  assert (H2 : FLAVORS thermalized_walker *
               MEASUREMENT_MAX_ORDER_HISTOGRAM (Accumulating := toy_accumulating)
               <= Int.max_int) by (by vm_compute).
  assert (H3 : length (count_creation_operators_of
                         (Accumulating := toy_accumulating)
                         (FLAVORS thermalized_walker)
                         (world thermalized_walker)) =
               Z.to_nat (FLAVORS thermalized_walker)) by done.
  assert (H4 : Forall (fun o => 0 <= o)
                 (count_creation_operators_of (Accumulating := toy_accumulating)
                    (FLAVORS thermalized_walker) (world thermalized_walker))).
  { by repeat constructor. }
  do 2 (split; [done|]).
  destruct (measure_perturbation_order_spec (Acc := toy_accumulating) thermalized_walker [] H1 H2 H3 H4)
    as (samples & Hrun & _ & _).
  exists samples. split; [exact Hrun|].
  vm_compute in Hrun. injection Hrun as Hs.
  destruct samples as [|v1 [|v2 [|v3 samples]]]; try discriminate Hs.
  by injection Hs as -> ->.
Defined.

(** ** [transform_G_back_to_original_basis] *)

Section TransformFacts.

Context {C : Type} `{Inhabited C}.
Variable sandwich : list (list C) -> list (list C).

Lemma G_index_exact (F Np1 i j t : Z) :
  0 <= i < F -> 0 <= j < F -> 0 <= t < Np1 -> F * F * Np1 <= Int.max_int ->
  G_index F Np1 i j t = (i * F + j) * Np1 + t /\
  0 <= (i * F + j) * Np1 + t < F * F * Np1.
Proof.
  intros Hi Hj Ht Hmax.
  assert (H1 : 0 <= i * F + j <= F * F - 1) by nia.
  assert (H2 : 0 <= (i * F + j) * Np1 + t < F * F * Np1) by nia.
  assert (H3 : 0 <= i * F <= F * F * Np1) by nia.
  assert (H4 : 0 <= i * F + j <= F * F * Np1) by nia.
  assert (H5 : 0 <= (i * F + j) * Np1 <= F * F * Np1) by nia.
  split; [|done]. unfold G_index, Int.add, Int.mul.
  rewrite (wrap_in_range (i * F))
    by (unfold Int.in_range, Int.min_int, Int.max_int in *; lia).
  rewrite (wrap_in_range (i * F + j))
    by (unfold Int.in_range, Int.min_int, Int.max_int in *; lia).
  rewrite (wrap_in_range ((i * F + j) * Np1))
    by (unfold Int.in_range, Int.min_int, Int.max_int in *; lia).
  apply wrap_in_range. unfold Int.in_range, Int.min_int, Int.max_int in *. lia.
Qed.

Lemma G_index_inj (F Np1 i j t i' j' t' : Z) :
  0 <= i < F -> 0 <= j < F -> 0 <= t < Np1 ->
  0 <= i' < F -> 0 <= j' < F -> 0 <= t' < Np1 ->
  (i * F + j) * Np1 + t = (i' * F + j') * Np1 + t' ->
  i = i' /\ j = j' /\ t = t'.
Proof.
  intros Hi Hj Ht Hi' Hj' Ht' Heq.
  destruct (Z.div_mod_unique Np1 (i * F + j) (i' * F + j') t t')
    as [Hq Hr]; [lia|lia|lia|].
  destruct (Z.div_mod_unique F i i' j j') as [Hq' Hr']; [lia|lia|lia|].
  done.
Qed.

Lemma foldl_insert_lookup {X} (keys : list X) (idx : X -> nat) (val : X -> C)
  (G : list C) :
  (forall x y, x ∈ keys -> y ∈ keys -> idx x = idx y -> val x = val y) ->
  length (foldl (fun G x => <[idx x := val x]> G) G keys) = length G /\
  (forall x, x ∈ keys -> (idx x < length G)%nat ->
     foldl (fun G x => <[idx x := val x]> G) G keys !! idx x = Some (val x)) /\
  (forall k, (forall x, x ∈ keys -> idx x <> k) ->
     foldl (fun G x => <[idx x := val x]> G) G keys !! k = G !! k).
Proof.
  revert G. induction keys as [|x keys IH]; intros G Hc; cbn [foldl].
  - split; [done|]. split; [|done]. intros x Hx. by apply elem_of_nil in Hx.
  - destruct (IH (<[idx x := val x]> G)) as (Hlen & Hset & Hkeep).
    { intros a b Ha Hb. apply Hc; by right. }
    rewrite length_insert in Hlen, Hset. split; [done|]. split.
    + intros y Hy Hlt.
      destruct (decide (idx y ∈ map idx keys)) as [Hdup|Hdup].
      * apply list_elem_of_fmap in Hdup as (z & Hz & Hzin).
        rewrite Hz, (Hc y z); [|done|by right|done].
        apply Hset; [done|]. by rewrite <- Hz.
      * apply elem_of_cons in Hy as [->|Hin].
        -- rewrite Hkeep; [by apply list_lookup_insert_eq|].
           intros z Hz Heq. apply Hdup. apply list_elem_of_fmap. by exists z.
        -- exfalso. apply Hdup. apply list_elem_of_fmap. by exists y.
    + intros k Hk. rewrite Hkeep.
      * apply list_lookup_insert_ne. apply Hk. by left.
      * intros y Hy. apply Hk. by right.
Qed.

Lemma foldl_nested {A X Y} (f : A -> X -> Y -> A) (l : list X) (k : list Y)
  (a : A) :
  foldl (fun a x => foldl (fun a y => f a x y) a k) a l =
  foldl (fun a p => f a p.1 p.2) a (list_prod l k).
Proof.
  revert a. induction l as [|x l IH]; intros a; [done|].
  cbn [foldl list_prod]. rewrite foldl_app, <- IH.
  assert (Hrow : forall a',
            foldl (fun a y => f a x y) a' k =
            foldl (fun a p => f a p.1 p.2) a' (map (fun y => (x, y)) k)).
  { clear IH. induction k as [|y k IHk]; intros a'; [done|].
    cbn [map foldl fst snd]. apply IHk. }
  by rewrite Hrow.
Qed.

Lemma scatter_spec (F Np1 t : Z) (m : list (list C)) (G : list C) :
  0 <= t < Np1 -> F * F * Np1 <= Int.max_int ->
  Z.of_nat (length G) = F * F * Np1 ->
  length (scatter F Np1 t m G) = length G /\
  (forall i j, 0 <= i < F -> 0 <= j < F ->
     scatter F Np1 t m G !! Z.to_nat ((i * F + j) * Np1 + t) =
     Some (coeff m i j)) /\
  (forall k,
     (forall i j, 0 <= i < F -> 0 <= j < F ->
        Z.to_nat ((i * F + j) * Np1 + t) <> k) ->
     scatter F Np1 t m G !! k = G !! k).
Proof.
  intros Ht Hmax Hlen. unfold scatter. rewrite foldl_nested.
  set (keys := list_prod (seqZ 0 (F - 0)) (seqZ 0 (F - 0))).
  assert (Hkeys : forall p, p ∈ keys <-> 0 <= p.1 < F /\ 0 <= p.2 < F).
  { intros [i j]. unfold keys. rewrite list_elem_of_In, in_prod_iff.
    rewrite <- !list_elem_of_In, !elem_of_seqZ. cbn [fst snd]. lia. }
  destruct (foldl_insert_lookup keys
              (fun p => Z.to_nat (G_index F Np1 p.1 p.2 t))
              (fun p => coeff m p.1 p.2) G) as (Hl & Hset & Hkeep).
  { intros [i j] [i' j'] Hp Hp' Heq. apply Hkeys in Hp, Hp'. cbn [fst snd] in *.
    destruct (G_index_exact F Np1 i j t) as [Hx Hb]; [lia..|].
    destruct (G_index_exact F Np1 i' j' t) as [Hx' Hb']; [lia..|].
    rewrite Hx, Hx' in Heq.
    destruct (G_index_inj F Np1 i j t i' j' t) as (-> & -> & _);
      [lia..|done]. }
  split; [done|]. split.
  - intros i j Hi Hj.
    destruct (G_index_exact F Np1 i j t) as [Hx Hb]; [lia..|].
    specialize (Hset (i, j)). cbn [fst snd] in Hset. rewrite Hx in Hset.
    apply Hset; [apply Hkeys; cbn [fst snd]; lia|lia].
  - intros k Hk. apply Hkeep. intros [i j] Hp. apply Hkeys in Hp.
    cbn [fst snd] in *.
    destruct (G_index_exact F Np1 i j t) as [Hx Hb]; [lia..|].
    rewrite Hx. apply Hk; lia.
Qed.

Lemma gather_ext (F Np1 t : Z) (G1 G2 : list C) :
  0 <= t < Np1 -> F * F * Np1 <= Int.max_int ->
  (forall i j, 0 <= i < F -> 0 <= j < F ->
     G1 !! Z.to_nat ((i * F + j) * Np1 + t) =
     G2 !! Z.to_nat ((i * F + j) * Np1 + t)) ->
  gather F Np1 t G1 = gather F Np1 t G2.
Proof.
  intros Ht Hmax Heq. unfold gather.
  apply map_ext_in. intros i Hi. apply map_ext_in. intros j Hj.
  apply list_elem_of_In, elem_of_seqZ in Hi, Hj.
  destruct (G_index_exact F Np1 i j t) as [Hx _]; [lia..|].
  rewrite Hx, !list_lookup_total_alt, Heq; [done|lia|lia].
Qed.

(** The loop over [time]: the slices of the times in [ts] are transformed,
    each from the slice of the array the loop started with, and the slices
    of all other times are as they were. *)
Lemma time_loop_spec (F Np1 : Z) (ts : list Z) (G : list C) :
  F * F * Np1 <= Int.max_int -> Z.of_nat (length G) = F * F * Np1 ->
  NoDup ts -> (forall t, t ∈ ts -> 0 <= t < Np1) ->
  length (foldl (transform_time_slice sandwich F Np1) G ts) = length G /\
  forall i j t, 0 <= i < F -> 0 <= j < F -> 0 <= t < Np1 ->
    foldl (transform_time_slice sandwich F Np1) G ts
      !! Z.to_nat ((i * F + j) * Np1 + t) =
    if decide (t ∈ ts) then Some (coeff (sandwich (gather F Np1 t G)) i j)
    else G !! Z.to_nat ((i * F + j) * Np1 + t).
Proof.
  intros Hmax. revert G. induction ts as [|t0 ts IH]; intros G Hlen Hnd Hts.
  - split; [done|]. intros i j t Hi Hj Ht. by rewrite decide_False by apply not_elem_of_nil.
  - cbn [foldl]. apply NoDup_cons in Hnd as [Hnot Hnd].
    assert (Ht0 : 0 <= t0 < Np1) by (apply Hts; by left).
    destruct (scatter_spec F Np1 t0 (sandwich (gather F Np1 t0 G)) G)
      as (Hl1 & Hset1 & Hkeep1); [done..|].
    fold (transform_time_slice sandwich F Np1 G t0) in Hl1, Hset1, Hkeep1.
    destruct (IH (transform_time_slice sandwich F Np1 G t0))
      as (Hl & Hslices); [by rewrite Hl1|done|intros t Hin; apply Hts; by right|].
    split; [by rewrite Hl, Hl1|].
    intros i j t Hi Hj Ht. rewrite (Hslices i j t Hi Hj Ht).
    assert (Hother : forall i' j' t', 0 <= i' < F -> 0 <= j' < F ->
              0 <= t' < Np1 -> t' <> t0 ->
              transform_time_slice sandwich F Np1 G t0
                !! Z.to_nat ((i' * F + j') * Np1 + t') =
              G !! Z.to_nat ((i' * F + j') * Np1 + t')).
    { intros i' j' t' Hi' Hj' Ht' Hne. apply Hkeep1. intros a b Ha Hb Heq.
      destruct (G_index_exact F Np1 a b t0) as [_ Hb1]; [lia..|].
      destruct (G_index_exact F Np1 i' j' t') as [_ Hb2]; [lia..|].
      destruct (G_index_inj F Np1 a b t0 i' j' t') as (_ & _ & ?);
        [lia..|lia|done]. }
    destruct (decide (t ∈ ts)) as [Hin|Hin].
    + rewrite decide_True by (by right).
      rewrite (gather_ext F Np1 t (transform_time_slice sandwich F Np1 G t0) G);
        [done|done|done|].
      intros i' j' Hi' Hj'. apply Hother; [done..|]. by intros ->.
    + destruct (decide (t = t0)) as [->|Hne].
      * rewrite decide_True by (by left). by apply Hset1.
      * rewrite decide_False by (intros [?|?]%elem_of_cons; done).
        by apply Hother.
Qed.

End TransformFacts.

(** X17. [transform_G_back_to_original_basis], for an array of the asserted
    size whose indices fit an [int]: the array keeps its length, and for every
    time point the slice [G[(i * FLAVORS + j) * Np1 + time]] is replaced by
    the rotated matrix of that slice of the array passed in; no pass reads
    what an earlier pass has written. A build with assertions demands [FLAVORS
    == SITES * SPINS] and [SPINS == 2]. *)
Theorem transform_G_slice_by_slice {C : Type} `{Inhabited C}
  (sandwich : list (list C) -> list (list C)) (ndebug : bool)
  (F SITES SPINS Np1 : Z) (G : list C) :
  0 <= F -> 0 <= Np1 -> F * F * Np1 <= Int.max_int ->
  Z.of_nat (length G) = F * F * Np1 ->
  (ndebug = false -> F = Int.mul SITES SPINS /\ SPINS = 2) ->
  exists G',
    transform_G_back_to_original_basis sandwich ndebug F SITES SPINS Np1 G =
    inr G' /\
    length G' = length G /\
    forall i j t, 0 <= i < F -> 0 <= j < F -> 0 <= t < Np1 ->
      G' !! Z.to_nat ((i * F + j) * Np1 + t) =
      Some (coeff (sandwich (gather F Np1 t G)) i j).
Proof.
  intros HF HN Hmax Hlen Hchk.
  destruct (time_loop_spec sandwich F Np1 (seqZ 0 (Np1 - 0)) G)
    as (Hl & Hslices); [done|done|apply NoDup_seqZ| |].
  { intros t Ht. apply elem_of_seqZ in Ht. lia. }
  eexists. split; [|split; [exact Hl|]].
  - unfold transform_G_back_to_original_basis.
    assert (Hsize : Int.to_size_t (Int.mul (Int.mul F F) Np1) = F * F * Np1).
    { unfold Int.to_size_t, Int.mul.
      assert (0 <= F * F) by nia. assert (0 <= F * F * Np1) by nia.
      destruct (decide (Np1 = 0)) as [->|Hne].
      - rewrite !Z.mul_0_r. by vm_compute.
      - assert (F * F <= F * F * Np1) by nia.
        rewrite (wrap_in_range (F * F))
          by (unfold Int.in_range, Int.min_int, Int.max_int in *; lia).
        rewrite wrap_in_range
          by (unfold Int.in_range, Int.min_int, Int.max_int in *; lia).
        apply Z.mod_small. unfold Int.max_int in *. lia. }
    destruct ndebug; cbn [negb andb]; [reflexivity|].
    destruct Hchk as [-> ->]; [done|].
    rewrite Z.eqb_refl, Hsize, Hlen, Z.eqb_refl. reflexivity.
  - intros i j t Hi Hj Ht. rewrite (Hslices i j t Hi Hj Ht).
    rewrite decide_True; [done|]. apply elem_of_seqZ. lia.
Qed.

Lemma transform_G_slice_by_slice_witness :
  0 <= 2 /\ 0 <= 2 /\ 2 * 2 * 2 <= Int.max_int /\
  Z.of_nat (length [1; 2; 3; 4; 5; 6; 7; 8]) = 2 * 2 * 2 /\
  exists G',
    transform_G_back_to_original_basis doubled false 2 1 2 2
      [1; 2; 3; 4; 5; 6; 7; 8] = inr G' /\
    G' !! 5%nat = Some 12.
Proof.
  assert (H1 : 0 <= 2) by lia.
  assert (H2 : 2 * 2 * 2 <= Int.max_int) by (by vm_compute).
  assert (H3 : Z.of_nat (length [1; 2; 3; 4; 5; 6; 7; 8]) = 2 * 2 * 2)
    by reflexivity.
  assert (H4 : false = false -> 2 = Int.mul 1 2 /\ 2 = 2) by (by vm_compute).
  split; [exact H1|]. split; [exact H1|]. split; [exact H2|].
  split; [exact H3|].
  destruct (transform_G_slice_by_slice doubled false 2 1 2 2
              [1; 2; 3; 4; 5; 6; 7; 8] H1 H1 H2 H3 H4) as (G' & Hrun & _ & Hs).
  exists G'. split; [exact Hrun|].
  apply (Hs 1 0 1); lia.
Defined.

(** ** [postprocess.hpp] *)

Lemma ltb_leb (x y : float) : (x <? y)%float = true -> (x <=? y)%float = true.
Proof.
  rewrite FloatAxioms.ltb_spec, FloatAxioms.leb_spec. unfold SFltb, SFleb.
  by destruct (SFcompare _ _) as [[]|].
Qed.

(** X18. Whatever [beta], [n_tau] and [itau] are, the argument
    [N2_correlation_function] hands to [compute_legendre] lies between [-1 +
    1E-8] and [1 - 1E-8]: the two clamping statements also catch an argument
    that is not a number. *)
Theorem N2_legendre_argument_clamped (beta : float) (n_tau itau : Z) :
  (-1 + 1E-8 <=? N2_legendre_argument beta n_tau itau)%float = true /\
  (N2_legendre_argument beta n_tau itau <=? 1 - 1E-8)%float = true.
Proof.
  unfold N2_legendre_argument. cbv zeta.
  set (x := (2 * _ / beta - 1.0)%float). clearbody x.
  unfold Std.max, Std.min.
  destruct (-1 + 1E-8 <? x)%float eqn:Hlo.
  - destruct (x <? 1 - 1E-8)%float eqn:Hhi.
    + split; by apply ltb_leb.
    + by vm_compute.
  - by vm_compute.
Qed.

(** With a single time point the mesh spacing is [beta / 0]; the argument is
    then the lower bound.  [compute_greens_functions] does not clamp. *)
Example N2_legendre_argument_single_point :
  N2_legendre_argument 10 1 0 = (-1 + 1E-8)%float.
Proof. by vm_compute. Qed.

Example greens_legendre_argument_no_points :
  is_nan (greens_legendre_argument 10 0 0) = true.
Proof. by vm_compute. Qed.
